(** * Bottom tab navigator: options shim, tab-bar layout, visibility and paging

    A shallow embedding of the bottom tab navigator
    ([createBottomTabNavigator.tsx]) and of the tab bar view
    ([BottomTabBar.tsx]), with the properties of its specification.

    Conventions of the embedding:
    - a finite JavaScript [number] (a length, an offset, a duration) is
      the rational [Q] it denotes, and comparisons of numbers are exact;
      where the code decides on, or stores, a sum or a quotient that
      rounding can change (the sum of the item widths, the quotient of a
      scroll offset or of the window width), the rounded operation is a
      parameter of the function, taken to give a finite number, with
      the binary64 operations [JS.add64] and [JS.div64] as its
      instance; the result of a JavaScript division is a [number] that
      can also be [NaN] or an infinity;
    - a JavaScript object used as a dictionary is a [gmap string _];
    - a JavaScript array is a [list]; an array that the code fills by
      index is a list of optional slots, [None] being a hole;
    - a property that may be [undefined] is an [option] (or the
      [VUndefined] constructor of [jsval] where the code stores it);
    - a property access on [undefined], which throws a [TypeError] in
      JavaScript, makes the embedded function return [None]. *)

From Stdlib Require Import QArith Qround Qminmax Qabs Lqa.
From stdpp Require Import gmap strings list pretty.

Local Open Scope string_scope.
Local Open Scope nat_scope.
Local Open Scope list_scope.

(** ** JavaScript values *)

Module JS.

(** The result of arithmetic that can leave the finite numbers. *)
Inductive number : Type :=
| Fin (q : Q)
| PosInfinity
| NegInfinity
| NaN.

(** [x / y] on finite operands; [quot] is the quotient of two numbers
    by a divisor other than 0, as the host rounds it, taken to be
    finite. *)
Definition div (quot : Q → Q → Q) (x y : Q) : number :=
  if Qeq_bool y 0%Q then
    match Qcompare x 0%Q with
    | Gt => PosInfinity
    | Lt => NegInfinity
    | Eq => NaN
    end
  else Fin (quot x y).

(** The binary64 arithmetic of JavaScript on finite numbers: the exact
    result rounded to the nearest number with 53 significant bits, a tie
    going to the even one, numbers below [2^-1022] being spaced like
    those just above it. Results beyond the largest number, which
    JavaScript turns into an infinity, are outside this model. *)
Definition pow2 (z : Z) : Q := (2 ^ z)%Q.

Definition roundHalfEven (q : Q) : Z :=
  let f := Qfloor q in
  match Qcompare (q - inject_Z f) (1 # 2) with
  | Lt => f
  | Gt => (f + 1)%Z
  | Eq => if Z.even f then f else (f + 1)%Z
  end.

(** The [e] with [2^e <= a < 2^(e+1)], for [a > 0]. *)
Definition binade (a : Q) : Z :=
  let e0 := (Z.log2 (Qnum a) - Z.log2 (Zpos (Qden a)))%Z in
  if Qle_bool (pow2 e0) a then e0 else (e0 - 1)%Z.

Definition round64 (q : Q) : Q :=
  if Qeq_bool q 0 then 0%Q
  else
    let a := Qabs q in
    let ulp := pow2 (Z.max (binade a) (-1022) - 52) in
    let m := inject_Z (roundHalfEven (a / ulp)) in
    Qred (if Qle_bool 0 q then m * ulp else - (m * ulp))%Q.

Definition add64 (x y : Q) : Q := round64 (x + y).

Definition div64 (x y : Q) : Q := round64 (x / y).

(** [Math.round]: the nearest integer, halves going up. *)
Definition Math_round (n : number) : number :=
  match n with
  | Fin q => Fin (inject_Z (Qfloor (q + (1 # 2))%Q))
  | other => other
  end.

(** [a !== b] on numbers: [NaN] differs from everything, itself included. *)
Definition strict_neq (a b : number) : bool :=
  match a, b with
  | Fin x, Fin y => negb (Qeq_bool x y)
  | PosInfinity, PosInfinity => false
  | NegInfinity, NegInfinity => false
  | _, _ => true
  end.

(** [a <= b] and [a >= b] against a finite bound. *)
Definition le_fin (a : number) (b : Q) : bool :=
  match a with
  | Fin x => Qle_bool x b
  | NegInfinity => true
  | PosInfinity | NaN => false
  end.

Definition ge_fin (a : number) (b : Q) : bool :=
  match a with
  | Fin x => Qle_bool b x
  | PosInfinity => true
  | NegInfinity | NaN => false
  end.

(** [a + b] with a finite right operand. *)
Definition add_fin (a : number) (b : Q) : number :=
  match a with
  | Fin x => Fin (x + b)%Q
  | other => other
  end.

(** The array index a number denotes when used as a property key: a
    non-negative integer; any other key names no element of an array. *)
Definition array_index (n : number) : option nat :=
  match n with
  | Fin q =>
      let z := Qfloor q in
      if Qeq_bool (inject_Z z) q && (0 <=? z)%Z then Some (Z.to_nat z)
      else None
  | _ => None
  end.

(** An array with holes; a hole reads as [undefined]. *)
Definition get {A} (a : list (option A)) (i : nat) : option A :=
  mjoin (a !! i).

(** [a[i] = x]: inside the array the slot is overwritten, beyond its end
    the array is extended and the slots in between are holes. *)
Definition set {A} (a : list (option A)) (i : nat) (x : A)
  : list (option A) :=
  if decide (i < length a) then <[i := Some x]> a
  else a ++ replicate (i - length a) None ++ [Some x].

(** [array.reduce((acc, item, index) => ..., init)]. *)
Fixpoint reduce_from {A B} (f : B → A → nat → B) (l : list A) (i : nat)
  (acc : B) : B :=
  match l with
  | [] => acc
  | x :: l' => reduce_from f l' (S i) (f acc x i)
  end.

Definition reduce {A B} (f : B → A → nat → B) (l : list A) (init : B) : B :=
  reduce_from f l 0 init.

(** The values the options bags carry. *)
#[warnings="-register-all"]
Inductive jsval : Type :=
| VUndefined
| VNull
| VBool (b : bool)
| VNum (q : Q)
| VString (s : string)
| VObject (fields : list (string * jsval))
| VArray (items : list jsval)
| VFunction (id : nat).

(** Truthiness, as [if (v)] and [v ? a : b] test it. *)
Definition truthy (v : jsval) : bool :=
  match v with
  | VUndefined | VNull => false
  | VBool b => b
  | VNum q => negb (Qeq_bool q 0%Q)
  | VString s => negb (String.eqb s "")
  | VObject _ | VArray _ | VFunction _ => true
  end.

(** [a ?? b]. *)
Definition nullish (a b : jsval) : jsval :=
  match a with
  | VUndefined | VNull => b
  | _ => a
  end.

Definition is_undefined (v : jsval) : bool :=
  match v with
  | VUndefined => true
  | _ => false
  end.

End JS.

(** ** [BottomTabBar.tsx] *)

Definition DEFAULT_TABBAR_HEIGHT : Q := 49%Q.
Definition COMPACT_TABBAR_HEIGHT : Q := 32%Q.
Definition DEFAULT_MAX_TAB_ITEM_WIDTH : Q := 125%Q.

(** [chunkArray]; [chunkSize] is a count, and [Math.floor(index / chunkSize)]
    is the quotient of the division of naturals for every [chunkSize >= 1]
    (a [chunkSize] of 0 is outside this embedding). *)
Definition chunkArray_step {A} (chunkSize : nat)
  (result : list (option (list A))) (item : A) (index : nat)
  : list (option (list A)) :=
  let chunkIndex := index / chunkSize in
  let result :=
    match JS.get result chunkIndex with
    | Some _ => result
    | None => JS.set result chunkIndex []
    end in
  alter (fmap (λ chunk, chunk ++ [item])) chunkIndex result.

Definition chunkArray {A} (array : list A) (chunkSize : nat)
  : list (option (list A)) :=
  JS.reduce (chunkArray_step chunkSize) array [].

(** *** Data model: routes, navigation state, options, descriptors *)

Record Route := {
  key : string;
  name : string;
}.

Record NavigationState := {
  state_key : string;
  index : nat;
  routes : list Route;
}.

Record Size := {
  height : Q;
  width : Q;
}.

Record EdgeInsets := {
  top : Q;
  right : Q;
  bottom : Q;
  left : Q;
}.

Inductive LabelPosition := BesideIcon | BelowIcon.

(** A dimension of a flattened style: a number, a string such as a
    percentage, or an animated node. *)
Inductive StyleValue :=
| SNumber (q : Q)
| SString (s : string)
| SAnimated.

(** The properties of a flattened view style that the tab bar reads. *)
Record ViewStyle := {
  style_height : option StyleValue;
  style_width : option StyleValue;
  style_maxWidth : option StyleValue;
}.

Inductive AnimationKind := Spring | Timing.

(** One direction of [tabBarVisibilityAnimationConfig]; [config] is the
    bag that is spread over the animation's settings. *)
Record TransitionSpec := {
  animation : AnimationKind;
  config : option (gmap string JS.jsval);
}.

Record VisibilityAnimationConfig := {
  show : option TransitionSpec;
  hide : option TransitionSpec;
}.

(** The resolved options of a route that the tab bar reads; [StyleProp]
    is the type of styles before [StyleSheet.flatten]. *)
Record Options {StyleProp : Type} := {
  title : JS.jsval;
  tabBarLabel : JS.jsval;
  tabBarLabelPosition : option LabelPosition;
  tabBarItemStyle : StyleProp;
  tabBarStyle : StyleProp;
  tabBarHideOnKeyboard : option bool;
  tabBarVisibilityAnimationConfig : option VisibilityAnimationConfig;
}.
Arguments Options : clear implicits.

Record Descriptor {StyleProp : Type} := {
  options : Options StyleProp;
}.
Arguments Descriptor : clear implicits.

Inductive OS := ios | android | web | windows | macos.

Record PlatformStatic := {
  Platform_OS : OS;
  Platform_isPad : bool;
}.

Definition is_ios (p : PlatformStatic) : bool :=
  match Platform_OS p with
  | ios => true
  | _ => false
  end.

(** [a > b] on finite numbers. *)
Definition Qgt_bool (a b : Q) : bool := negb (Qle_bool a b).

Section TabBarLayout.

(** The rendering host: the platform constants and [StyleSheet.flatten],
    which yields [undefined] or one style object; and [add], the sum of
    two numbers as the host rounds it. *)
Context {StyleProp : Type}.
Variable Platform : PlatformStatic.
Variable flatten : StyleProp → option ViewStyle.
Variable add : Q → Q → Q.

(** The callback of the [reduce] of [shouldUseHorizontalLabels]. *)
Definition itemWidth (d : Descriptor StyleProp) : Q :=
  match flatten (tabBarItemStyle (options d)) with
  | Some flattenedStyle =>
      match style_width flattenedStyle with
      | Some (SNumber w) => w
      | _ =>
          match style_maxWidth flattenedStyle with
          | Some (SNumber w) => w
          | _ => DEFAULT_MAX_TAB_ITEM_WIDTH
          end
      end
  | None => DEFAULT_MAX_TAB_ITEM_WIDTH
  end.

Definition maxTabWidth_step (descriptors : gmap string (Descriptor StyleProp))
  (acc : option Q) (route : Route) (_ : nat) : option Q :=
  acc ← acc;
  d ← descriptors !! key route;
  Some (add acc (itemWidth d)).

Definition shouldUseHorizontalLabels (state : NavigationState)
  (descriptors : gmap string (Descriptor StyleProp))
  (layout dimensions : Size) : option bool :=
  focused ← routes state !! index state;
  d ← descriptors !! key focused;
  match tabBarLabelPosition (options d) with
  | Some BesideIcon => Some true
  | Some BelowIcon => Some false
  | None =>
      if Qle_bool 768 (width layout) then
        maxTabWidth ←
          JS.reduce (maxTabWidth_step descriptors) (routes state) (Some 0%Q);
        Some (Qle_bool maxTabWidth (width layout))
      else
        Some (Qgt_bool (width dimensions) (height dimensions))
  end.

Definition getPaddingBottom (insets : EdgeInsets) : Q :=
  Qmax (bottom insets - (if is_ios Platform then 4 else 0))%Q 0%Q.

Definition getTabBarHeight (state : NavigationState)
  (descriptors : gmap string (Descriptor StyleProp))
  (dimensions : Size) (insets : EdgeInsets) (style : StyleProp)
  (layout : Size) : option Q :=
  match flatten style ≫= style_height with
  | Some (SNumber customHeight) => Some customHeight
  | _ =>
      let isLandscape := Qgt_bool (width dimensions) (height dimensions) in
      horizontalLabels ←
        shouldUseHorizontalLabels state descriptors layout dimensions;
      let paddingBottom := getPaddingBottom insets in
      if is_ios Platform && negb (Platform_isPad Platform)
         && isLandscape && horizontalLabels
      then Some (COMPACT_TABBAR_HEIGHT + paddingBottom)%Q
      else Some (DEFAULT_TABBAR_HEIGHT + paddingBottom)%Q
  end.

End TabBarLayout.

(** *** Paging *)

(** The [pages] memo of [BottomTabBar]. *)
Definition pages (scrollEnabled : bool) (state : NavigationState)
  (tabCountPerPage : nat) : list (option (list Route)) :=
  if scrollEnabled then chunkArray (routes state) tabCountPerPage else [].

Definition default_tabCountPerPage : nat := 4.

(** The selected page after the [onMomentumScrollEnd] handler of
    [BottomTabBar] ran, and the argument of the [setSelectedPage] call it
    made, if any; [quot] is the quotient of two numbers as the host
    rounds it. *)
Definition onMomentumScrollEnd (quot : Q → Q → Q)
  (contentOffset_x layout_width : Q)
  (selectedPage : JS.number) : JS.number * option JS.number :=
  let index := JS.Math_round (JS.div quot contentOffset_x layout_width) in
  if JS.strict_neq index selectedPage then (index, Some index)
  else (selectedPage, None).

(** The props of the [ScrollView]: the handler above is passed only when
    [pagingIcons] is given, and a handler in [scrollViewProps], spread
    after it, replaces it. A replacement cannot reach [setSelectedPage]. *)
Definition scrollSettle (quot : Q → Q → Q) (pagingIcons : bool)
  (scrollViewProps_handler : bool)
  (contentOffset_x layout_width : Q) (selectedPage : JS.number)
  : JS.number * option JS.number :=
  if scrollViewProps_handler then (selectedPage, None)
  else if pagingIcons then
    onMomentumScrollEnd quot contentOffset_x layout_width selectedPage
  else (selectedPage, None).

(** [pages?.[selectedPage + 1]]. *)
Definition pageAfter {A} (pages : list (option A)) (selectedPage : JS.number)
  : option A :=
  i ← JS.array_index (JS.add_fin selectedPage 1%Q);
  JS.get pages i.

(** Which paging affordances the scrolling branch of the render draws. *)
Record PagingAffordances := {
  rightIcon : bool;
  leftIcon : bool;
}.

Definition renderPagingAffordances {A} (scrollEnabled : bool)
  (pages : list (option A)) (selectedPage : JS.number)
  : option PagingAffordances :=
  if scrollEnabled then
    Some {| rightIcon :=
              JS.le_fin selectedPage 1%Q
              && bool_decide (is_Some (pageAfter pages selectedPage));
            leftIcon := JS.ge_fin selectedPage 1%Q |}
  else None.

(** *** Visibility of the tab bar *)

Definition shouldShowTabBar (tabBarHideOnKeyboard : option bool)
  (isKeyboardShown : bool) : bool :=
  negb (default false tabBarHideOnKeyboard && isKeyboardShown).

(** The two completion callbacks the effect passes to [start]: the one of
    the show branch, and none in the hide branch. *)
Inductive Callback :=
| ShowCallback
| NoCallback.

(** A started animation: [Animated.spring] or [Animated.timing], the
    settings object it was given, and the callback given to [start]. *)
Record Animation := {
  driver : AnimationKind;
  settings : gmap string JS.jsval;
  onEnd : Callback;
}.

Definition toValue (a : Animation) : option JS.jsval :=
  settings a !! "toValue".

(** The [Animated.Value]: where it rests ([None] while it moves, or once
    it was stopped on its way), and the animation that drives it. *)
Record AnimatedValue := {
  resting : option Q;
  running : option Animation;
}.

(** The part of the state of [BottomTabBar] that the visibility effect
    reads and writes, with the [shouldShowTabBar] of the last render that
    ran the effect. *)
Record TabBarVisibility := {
  isTabBarHidden : bool;
  visible : AnimatedValue;
  lastShouldShow : bool;
}.

Definition setIsTabBarHidden (b : bool) (st : TabBarVisibility)
  : TabBarVisibility :=
  {| isTabBarHidden := b;
     visible := visible st;
     lastShouldShow := lastShouldShow st |}.

Definition setVisible (v : AnimatedValue) (st : TabBarVisibility)
  : TabBarVisibility :=
  {| isTabBarHidden := isTabBarHidden st;
     visible := v;
     lastShouldShow := lastShouldShow st |}.

(** [({ finished }) => { if (finished) setIsTabBarHidden(false) }]. *)
Definition runCallback (cb : Callback) (finished : bool)
  (st : TabBarVisibility) : TabBarVisibility :=
  match cb with
  | ShowCallback => if finished then setIsTabBarHidden false st else st
  | NoCallback => st
  end.

(** [visible.stopAnimation()]: the animation in flight, if any, ends
    unfinished and its callback is told so. *)
Definition stopAnimation (st : TabBarVisibility) : TabBarVisibility :=
  match running (visible st) with
  | Some a =>
      runCallback (onEnd a) false
        (setVisible {| resting := None; running := None |} st)
  | None => st
  end.

(** [animation(visible, settings).start(callback)]: a value has one
    animation at a time, starting one stops the previous one. *)
Definition startAnimation (a : Animation) (st : TabBarVisibility)
  : TabBarVisibility :=
  let st := stopAnimation st in
  setVisible {| resting := None; running := Some a |} st.

(** The animation in flight reaches its end value and reports
    [finished: true]. *)
Definition animationEnd (st : TabBarVisibility) : TabBarVisibility :=
  match running (visible st) with
  | Some a =>
      let rest :=
        match toValue a with
        | Some (JS.VNum q) => Some q
        | _ => None
        end in
      runCallback (onEnd a) true
        (setVisible {| resting := rest; running := None |} st)
  | None => st
  end.

Section TabBarVisibilityEffect.

Variable Platform : PlatformStatic.

Definition useNativeDriver : bool :=
  match Platform_OS Platform with
  | web => false
  | _ => true
  end.

(** [x?.animation === 'spring' ? Animated.spring : Animated.timing]. *)
Definition pickAnimation (spec : option TransitionSpec) : AnimationKind :=
  match animation <$> spec with
  | Some Spring => Spring
  | _ => Timing
  end.

(** [{ toValue, useNativeDriver, duration, ...x?.config }]: the keys
    of the spread bag win. *)
Definition animationSettings (target duration : Q)
  (spec : option TransitionSpec) : gmap string JS.jsval :=
  default ∅ (spec ≫= config)
  ∪ {[ "toValue" := JS.VNum target;
       "useNativeDriver" := JS.VBool useNativeDriver;
       "duration" := JS.VNum duration ]}.

(** The body of the visibility effect. *)
Definition visibilityEffect
  (visibilityAnimationConfig : option VisibilityAnimationConfig)
  (shouldShow : bool) (st : TabBarVisibility) : TabBarVisibility :=
  if shouldShow then
    let spec := visibilityAnimationConfig ≫= show in
    startAnimation
      {| driver := pickAnimation spec;
         settings := animationSettings 1 250 spec;
         onEnd := ShowCallback |} st
  else
    let st := setIsTabBarHidden true st in
    let spec := visibilityAnimationConfig ≫= hide in
    startAnimation
      {| driver := pickAnimation spec;
         settings := animationSettings 0 200 spec;
         onEnd := NoCallback |} st.

(** The cleanup the effect returns. *)
Definition visibilityCleanup (st : TabBarVisibility) : TabBarVisibility :=
  stopAnimation st.

(** The first render: the initial values of the state hooks, then the
    effect. *)
Definition mount (visibilityAnimationConfig : option VisibilityAnimationConfig)
  (shouldShow : bool) : TabBarVisibility :=
  visibilityEffect visibilityAnimationConfig shouldShow
    {| isTabBarHidden := negb shouldShow;
       visible := {| resting := Some (if shouldShow then 1 else 0)%Q;
                     running := None |};
       lastShouldShow := shouldShow |}.

(** A later render: the effect depends on [shouldShowTabBar] (the value
    [visible] never changes identity); when it changed, the cleanup of
    the previous run and then the effect run, with the configuration
    that the ref holds at that moment. *)
Definition rerender
  (visibilityAnimationConfig : option VisibilityAnimationConfig)
  (shouldShow : bool) (st : TabBarVisibility) : TabBarVisibility :=
  if Bool.eqb shouldShow (lastShouldShow st) then st
  else
    let st := visibilityCleanup st in
    visibilityEffect visibilityAnimationConfig shouldShow
      {| isTabBarHidden := isTabBarHidden st;
         visible := visible st;
         lastShouldShow := shouldShow |}.

(** The container is taken out of the layout flow:
    [position: isTabBarHidden ? 'absolute' : null]. *)
Definition outOfLayoutFlow (st : TabBarVisibility) : bool :=
  isTabBarHidden st.

End TabBarVisibilityEffect.

(** The configurations of the declared type: the spread bags carry
    neither [toValue] nor [useNativeDriver]. *)
Definition specTyped (spec : option TransitionSpec) : Prop :=
  ∀ c, spec ≫= config = Some c →
       c !! "toValue" = None ∧ c !! "useNativeDriver" = None.

Definition configTyped (cfg : option VisibilityAnimationConfig) : Prop :=
  specTyped (cfg ≫= show) ∧ specTyped (cfg ≫= hide).

(** The states the component goes through. *)
Inductive reachable (Platform : PlatformStatic) : TabBarVisibility → Prop :=
| reachable_mount cfg shouldShow :
    configTyped cfg →
    reachable Platform (mount Platform cfg shouldShow)
| reachable_rerender cfg shouldShow st :
    configTyped cfg →
    reachable Platform st →
    reachable Platform (rerender Platform cfg shouldShow st)
| reachable_animationEnd st :
    reachable Platform st →
    reachable Platform (animationEnd st).

(** The four states of the visibility machine, as the specification
    names them; the code keeps the boolean and the animated value
    only. [Shown] is the value settled at 1,
    [Showing] an animation toward 1, [Hiding] an animation toward 0, and
    [Hidden] the value settled at 0 with the container removed from the
    normal layout flow. *)
Inductive VisibilityState := Shown | Showing | Hidden | Hiding.

Definition isNum (v : option JS.jsval) (q : Q) : bool :=
  match v with
  | Some (JS.VNum x) => Qeq_bool x q
  | _ => false
  end.

Definition visibilityState (st : TabBarVisibility) : option VisibilityState :=
  match running (visible st) with
  | Some a =>
      if isNum (toValue a) 1 then Some Showing
      else if isNum (toValue a) 0 then Some Hiding
      else None
  | None =>
      match resting (visible st) with
      | Some q =>
          if Qeq_bool q 1 then Some Shown
          else if Qeq_bool q 0 && isTabBarHidden st then Some Hidden
          else None
      | None => None
      end
  end.

(** *** [TabRoutes]: press handling and labels *)

(** The argument of [navigation.emit]. *)
Record EmitOptions := {
  emit_type : string;
  emit_target : string;
  canPreventDefault : option bool;
}.

(** The event [navigation.emit] returns. *)
Record EmittedEvent := {
  defaultPrevented : bool;
}.

(** The object [CommonActions.navigate({ name, merge })] builds, with the
    [target] the press handler adds. *)
Record NavigateAction := {
  action_type : string;
  payload_name : string;
  payload_merge : bool;
  action_target : option string;
}.

Definition CommonActions_navigate (name : string) (merge : bool)
  : NavigateAction :=
  {| action_type := "NAVIGATE";
     payload_name := name;
     payload_merge := merge;
     action_target := None |}.

Definition withTarget (a : NavigateAction) (target : string)
  : NavigateAction :=
  {| action_type := action_type a;
     payload_name := payload_name a;
     payload_merge := payload_merge a;
     action_target := Some target |}.

(** What a handler did with the navigation handle, in order. *)
Inductive NavigationCall :=
| Emit (e : EmitOptions)
| Dispatch (a : NavigateAction).

(** Handlers run against the listeners of the navigator (which decide
    whether an emitted event ends up prevented) and log their calls. *)
Definition Nav (A : Type) : Type :=
  (EmitOptions → bool) → list NavigationCall → A * list NavigationCall.

Definition nav_ret {A} (x : A) : Nav A := λ _ log, (x, log).

Definition nav_bind {A B} (m : Nav A) (f : A → Nav B) : Nav B :=
  λ listeners log, let '(x, log') := m listeners log in f x listeners log'.

Notation "x ←ₙ m ; k" := (nav_bind m (λ x, k))
  (at level 20, m at level 100, k at level 200, only parsing).

Definition navigation_emit (e : EmitOptions) : Nav EmittedEvent :=
  λ listeners log,
    ({| defaultPrevented :=
          default false (canPreventDefault e) && listeners e |},
     log ++ [Emit e]).

Definition navigation_dispatch (a : NavigateAction) : Nav unit :=
  λ _ log, (tt, log ++ [Dispatch a]).

Definition runNav {A} (m : Nav A) (listeners : EmitOptions → bool)
  : list NavigationCall :=
  snd (m listeners []).

(** [onPress] of the item of [route], rendered at position [i]. *)
Definition onPress (state : NavigationState) (route : Route) (i : nat)
  : Nav unit :=
  let focused := bool_decide (i = index state) in
  event ←ₙ navigation_emit {| emit_type := "tabPress";
                              emit_target := key route;
                              canPreventDefault := Some true |};
  if negb focused && negb (defaultPrevented event) then
    navigation_dispatch
      (withTarget (CommonActions_navigate (name route) true)
                  (state_key state))
  else nav_ret tt.

(** [onLongPress]. *)
Definition onLongPress (route : Route) : Nav EmittedEvent :=
  navigation_emit {| emit_type := "tabLongPress";
                     emit_target := key route;
                     canPreventDefault := None |}.

(** The [label] prop of the item of [route]. *)
Definition label {StyleProp} (opts : Options StyleProp) (route : Route)
  : JS.jsval :=
  if negb (JS.is_undefined (tabBarLabel opts)) then tabBarLabel opts
  else if negb (JS.is_undefined (title opts)) then title opts
  else JS.VString (name route).

(** *** The rest of the render of [BottomTabBar] and [TabRoutes] *)

(** [handleLayout]: the layout it leaves in the state and the heights it
    reports; [onHeightChange] tells whether the context provides the
    callback. The updater returns the layout it was given when both
    measures are unchanged. *)
Definition handleLayout (onHeightChange : bool) (measured layout : Size)
  : Size * list Q :=
  (if Qeq_bool (height measured) (height layout)
      && Qeq_bool (width measured) (width layout)
   then layout
   else {| height := height measured; width := width measured |},
   if onHeightChange then [height measured] else []).


(** The [accessibilityLabel] prop of the item at position [i] of [count],
    given its [tabBarAccessibilityLabel] option and its [label]. *)
Definition accessibilityLabel (Platform : PlatformStatic)
  (tabBarAccessibilityLabel label : JS.jsval) (i count : nat) : JS.jsval :=
  if negb (JS.is_undefined tabBarAccessibilityLabel)
  then tabBarAccessibilityLabel
  else
    match label with
    | JS.VString l =>
        if is_ios Platform then
          JS.VString (l +:+ ", tab, " +:+ pretty (i + 1) +:+ " of "
                        +:+ pretty count)
        else JS.VUndefined
    | _ => JS.VUndefined
    end.

(** What happens to a mounted tab bar: a render, with the
    [tabBarHideOnKeyboard] option of the focused route, the keyboard
    signal and the animation configuration of that render, or the end of
    the animation in flight. *)
Inductive TabBarEvent :=
| Rendered (tabBarHideOnKeyboard : option bool) (isKeyboardShown : bool)
    (cfg : option VisibilityAnimationConfig)
| AnimationFinished.

Definition visibilityStep (Platform : PlatformStatic) (st : TabBarVisibility)
  (ev : TabBarEvent) : TabBarVisibility :=
  match ev with
  | Rendered hideOnKeyboard isKeyboardShown cfg =>
      rerender Platform cfg (shouldShowTabBar hideOnKeyboard isKeyboardShown)
        st
  | AnimationFinished => animationEnd st
  end.

Definition visibilityRun (Platform : PlatformStatic)
  (events : list TabBarEvent) (st : TabBarVisibility) : TabBarVisibility :=
  foldl (visibilityStep Platform) st events.

(** ** [createBottomTabNavigator.tsx] *)

(** The deprecated [tabBarOptions] prop. *)
Record LegacyTabBarOptions := {
  keyboardHidesTabBar : JS.jsval;
  activeTintColor : JS.jsval;
  inactiveTintColor : JS.jsval;
  activeBackgroundColor : JS.jsval;
  inactiveBackgroundColor : JS.jsval;
  allowFontScaling : JS.jsval;
  showLabel : JS.jsval;
  labelStyle : JS.jsval;
  iconStyle : JS.jsval;
  tabStyle : JS.jsval;
  labelPosition : JS.jsval;
  adaptive : JS.jsval;
  tabBarVisible : JS.jsval;
}.

(** A call of [warnOnce] whose condition holds, by the message it
    passes: the one about [tabBarOptions], which quotes the defaults
    computed from the bag, or the one about [lazy]. *)
Inductive Warning :=
| TabBarOptionsDeprecated (current : gmap string JS.jsval)
| LazyDeprecated.

(** [warnOnce], over the calls of one render: a message is printed the
    first time it is passed and never again. [message] is the text of a
    call and [warned] the texts printed so far; the result is the calls
    that print, and the texts printed after them. *)
Fixpoint warnOnce (message : Warning → string) (warned : gset string)
  (calls : list Warning) : list Warning * gset string :=
  match calls with
  | [] => ([], warned)
  | w :: rest =>
      if decide (message w ∈ warned) then warnOnce message warned rest
      else
        let '(printed, warned') :=
          warnOnce message ({[ message w ]} ∪ warned) rest in
        (w :: printed, warned')
  end.

(** [v === false]. *)
Definition is_false (v : JS.jsval) : bool :=
  match v with
  | JS.VBool false => true
  | _ => false
  end.

(** The object given to [Object.assign] for a bag [o]; the
    [defaultScreenOptions] it is assigned to are still empty, so their
    [tabBarStyle] reads as [undefined]. *)
Definition assignedOptions (o : LegacyTabBarOptions) : gmap string JS.jsval :=
  {[ "tabBarHideOnKeyboard" := keyboardHidesTabBar o;
     "tabBarActiveTintColor" := activeTintColor o;
     "tabBarInactiveTintColor" := inactiveTintColor o;
     "tabBarActiveBackgroundColor" := activeBackgroundColor o;
     "tabBarInactiveBackgroundColor" := inactiveBackgroundColor o;
     "tabBarAllowFontScaling" := allowFontScaling o;
     "tabBarShowLabel" := showLabel o;
     "tabBarLabelStyle" := labelStyle o;
     "tabBarIconStyle" := iconStyle o;
     "tabBarItemStyle" := tabStyle o;
     "tabBarLabelPosition" :=
       JS.nullish (labelPosition o)
         (if is_false (adaptive o) then JS.VString "below-icon"
          else JS.VUndefined);
     "tabBarStyle" :=
       JS.VArray
         [ JS.VObject
             [ ("display",
                JS.VString (if JS.truthy (tabBarVisible o) then "none"
                            else "flex")) ];
           JS.VUndefined ] ]}.

(** The [forEach] that deletes the keys left [undefined]. *)
Definition dropUndefined (m : gmap string JS.jsval) : gmap string JS.jsval :=
  filter (λ kv, JS.is_undefined kv.2 = false) m.

(** [defaultScreenOptions] as [BottomTabNavigator] hands them to
    [useNavigationBuilder], with the calls of [warnOnce] it made on the
    way, in order; what those calls print is up to [warnOnce]. [lazy] is
    the legacy prop, [Some] when it is a boolean. *)
Definition defaultScreenOptions (tabBarOptions : option LegacyTabBarOptions)
  (lazy : option bool) : gmap string JS.jsval * list Warning :=
  let '(opts, warnings) :=
    match tabBarOptions with
    | Some o =>
        let opts := dropUndefined (assignedOptions o ∪ ∅) in
        (opts, [TabBarOptionsDeprecated opts])
    | None => (∅, [])
    end in
  match lazy with
  | Some b => (<["lazy" := JS.VBool b]> opts, warnings ++ [LazyDeprecated])
  | None => (opts, warnings)
  end.

(** The [display] entries of a style: those of the object itself, or of
    the objects of a style array. *)
Definition displayOf (style : JS.jsval) : list JS.jsval :=
  match style with
  | JS.VArray items =>
      flat_map (λ item,
        match item with
        | JS.VObject fields =>
            omap (λ kv, if String.eqb kv.1 "display" then Some kv.2 else None)
                 fields
        | _ => []
        end) items
  | JS.VObject fields =>
      omap (λ kv, if String.eqb kv.1 "display" then Some kv.2 else None)
           fields
  | _ => []
  end.

(** A property of the item style the navigator writes to: the computed
    width is a quotient, every other property is kept as it is. *)
Inductive ItemStyleValue :=
| ItemNumber (n : JS.number)
| ItemOther (v : JS.jsval).

(** The part of the [screenOptions] prop that [BottomTabNavigator] reads
    and writes, when it is an object. [screen_tabBarItemStyle] is the
    bag of own properties of the style, [None] for [undefined] and the
    other values that [||] replaces. *)
Record ScreenOptions := {
  itemCountByPage : option Q;
  screen_tabBarItemStyle : option (gmap string ItemStyleValue);
  screen_scrollEnabled : JS.jsval;
}.

(** The block on [itemCountByPage]: the [screenOptions] after it, for the
    window [width]; [quot] is the quotient of two numbers as the host
    rounds it. *)
Definition injectItemWidth (quot : Q → Q → Q) (windowWidth : Q)
  (screenOptions : option ScreenOptions) : option ScreenOptions :=
  match screenOptions with
  | Some so =>
      match itemCountByPage so with
      | Some count =>
          Some {| itemCountByPage := itemCountByPage so;
                  screen_tabBarItemStyle :=
                    Some (<["width" :=
                              ItemNumber (JS.div quot windowWidth count)]>
                            (default ∅ (screen_tabBarItemStyle so)));
                  screen_scrollEnabled := screen_scrollEnabled so |}
      | None => Some so
      end
  | None => None
  end.

(** ** Notions used to state the properties *)

(** The number of pages of [p] items that [n] items need. *)
Definition ceilDiv (n p : nat) : nat := (n + (p - 1)) / p.

(** The shape of a list of pages of size [P]: none at all, or full pages
    followed by one last page that is neither empty nor over-full. *)
Inductive chunked {A} (P : nat) : list (list A) → Prop :=
| chunked_nil : chunked P []
| chunked_snoc fulls l :
    Forall (λ p, length p = P) fulls →
    1 ≤ length l ≤ P →
    chunked P (fulls ++ [l]).

(** The invariant of the data model: the index points at a route and
    every route has its descriptor. *)
Definition wellFormed {StyleProp} (state : NavigationState)
  (descriptors : gmap string (Descriptor StyleProp)) : Prop :=
  index state < length (routes state)
  ∧ ∀ r, r ∈ routes state → is_Some (descriptors !! key r).

(** The configured width of an item in the words of the specification:
    the explicit width of its flattened style, else its explicit maximal
    width, else 125; explicit means given as a number. *)
Definition explicitNumber (v : option StyleValue) : option Q :=
  match v with
  | Some (SNumber q) => Some q
  | _ => None
  end.

Definition configuredItemWidth (flattened : option ViewStyle) : Q :=
  default 125%Q
    ((flattened ≫= λ s, explicitNumber (style_width s))
     ∪ (flattened ≫= λ s, explicitNumber (style_maxWidth s))).

(** The sum of the configured item widths of the descriptors [ds], added
    up from 0 in their order with the sum [add] of the host. *)
Definition sumItemWidths {StyleProp} (add : Q → Q → Q)
  (flatten : StyleProp → option ViewStyle)
  (ds : list (Descriptor StyleProp)) : Q :=
  foldl (λ acc d,
           add acc (configuredItemWidth (flatten (tabBarItemStyle (options d)))))
        0%Q ds.

(** The descriptors of the routes [rs], in their order. *)
Definition descriptorsOfRoutes {StyleProp}
  (descriptors : gmap string (Descriptor StyleProp)) (rs : list Route)
  (ds : list (Descriptor StyleProp)) : Prop :=
  Forall2 (λ r d, descriptors !! key r = Some d) rs ds.

(** What holds of the visibility state between two events: the boolean is
    set whenever the bar should not show, the animation in flight goes
    toward the side the bar should be on and carries the callback of that
    side, and a value at rest is on that side, with the boolean cleared
    when that side is shown. *)
Definition sideOf (shouldShow : bool) : Q := if shouldShow then 1%Q else 0%Q.

Definition consistent (st : TabBarVisibility) : Prop :=
  (lastShouldShow st = false → isTabBarHidden st = true)
  ∧ match running (visible st) with
    | Some a =>
        toValue a = Some (JS.VNum (sideOf (lastShouldShow st)))
        ∧ onEnd a = (if lastShouldShow st then ShowCallback else NoCallback)
    | None =>
        resting (visible st) = Some (sideOf (lastShouldShow st))
        ∧ (lastShouldShow st = true → isTabBarHidden st = false)
    end.

(** The ten fields of the deprecated bag that are copied under a new
    name as they are. *)
Definition renamedFields : list ((LegacyTabBarOptions → JS.jsval) * string) :=
  [ (keyboardHidesTabBar, "tabBarHideOnKeyboard");
    (activeTintColor, "tabBarActiveTintColor");
    (inactiveTintColor, "tabBarInactiveTintColor");
    (activeBackgroundColor, "tabBarActiveBackgroundColor");
    (inactiveBackgroundColor, "tabBarInactiveBackgroundColor");
    (allowFontScaling, "tabBarAllowFontScaling");
    (showLabel, "tabBarShowLabel");
    (labelStyle, "tabBarLabelStyle");
    (iconStyle, "tabBarIconStyle");
    (tabStyle, "tabBarItemStyle") ].

(** ** Sample inputs *)

Definition route_of (k : string) : Route := {| key := k ++ "-key"; name := k |}.

Definition five_tabs : NavigationState :=
  {| state_key := "tab-1";
     index := 0;
     routes := route_of <$> ["Home"; "Feed"; "Chat"; "Inbox"; "Me"] |}.

Definition itemStyle (w : Q) : option ViewStyle :=
  Some {| style_height := None;
          style_width := Some (SNumber w);
          style_maxWidth := None |}.

Definition optionsOf (position : option LabelPosition)
  (item : option ViewStyle) : Options (option ViewStyle) :=
  {| title := JS.VUndefined;
     tabBarLabel := JS.VUndefined;
     tabBarLabelPosition := position;
     tabBarItemStyle := item;
     tabBarStyle := None;
     tabBarHideOnKeyboard := None;
     tabBarVisibilityAnimationConfig := None |}.

Definition three_tabs : NavigationState :=
  {| state_key := "tab-1";
     index := 1;
     routes := route_of <$> ["Home"; "Feed"; "Me"] |}.

Definition descriptorsOf (position : option LabelPosition)
  (item : option ViewStyle) : gmap string (Descriptor (option ViewStyle)) :=
  list_to_map
    ((λ r, (key r, {| options := optionsOf position item |}))
       <$> routes three_tabs).

Definition maxWidthStyle (w : Q) : option ViewStyle :=
  Some {| style_height := None;
          style_width := Some (SString "auto");
          style_maxWidth := Some (SNumber w) |}.

(** The descriptors of the three routes, each with its own item style. *)
Definition descriptorsWithItems (position : option LabelPosition)
  (items : list (option ViewStyle))
  : gmap string (Descriptor (option ViewStyle)) :=
  list_to_map
    (zip_with (λ r item, (key r, {| options := optionsOf position item |}))
       (routes three_tabs) items).

Definition iPhone : PlatformStatic :=
  {| Platform_OS := ios; Platform_isPad := false |}.

Definition tabletLayout : Size := {| height := 49; width := 768 |}.

Definition portrait : Size := {| height := 1024; width := 768 |}.

Definition landscape : Size := {| height := 390; width := 844 |}.

Definition insetsOf (b : Q) : EdgeInsets :=
  {| top := 0; right := 0; bottom := b; left := 0 |}.

Definition emptyBag : LegacyTabBarOptions :=
  {| keyboardHidesTabBar := JS.VUndefined;
     activeTintColor := JS.VUndefined;
     inactiveTintColor := JS.VUndefined;
     activeBackgroundColor := JS.VUndefined;
     inactiveBackgroundColor := JS.VUndefined;
     allowFontScaling := JS.VUndefined;
     showLabel := JS.VUndefined;
     labelStyle := JS.VUndefined;
     iconStyle := JS.VUndefined;
     tabStyle := JS.VUndefined;
     labelPosition := JS.VUndefined;
     adaptive := JS.VUndefined;
     tabBarVisible := JS.VUndefined |}.

(** The bag [{ activeTintColor: "red", tabBarVisible: false }]. *)
Definition redInvisibleBag : LegacyTabBarOptions :=
  {| keyboardHidesTabBar := JS.VUndefined;
     activeTintColor := JS.VString "red";
     inactiveTintColor := JS.VUndefined;
     activeBackgroundColor := JS.VUndefined;
     inactiveBackgroundColor := JS.VUndefined;
     allowFontScaling := JS.VUndefined;
     showLabel := JS.VUndefined;
     labelStyle := JS.VUndefined;
     iconStyle := JS.VUndefined;
     tabStyle := JS.VUndefined;
     labelPosition := JS.VUndefined;
     adaptive := JS.VUndefined;
     tabBarVisible := JS.VBool false |}.

Definition quickSpringHide : VisibilityAnimationConfig :=
  {| show := None;
     hide := Some {| animation := Spring;
                     config := Some {[ "duration" := JS.VNum 100 ]} |} |}.

Definition fourPerPage : ScreenOptions :=
  {| itemCountByPage := Some 4%Q;
     screen_tabBarItemStyle :=
       Some {[ "width" := ItemNumber (JS.Fin 10);
               "flex" := ItemNumber (JS.Fin 1) ]};
     screen_scrollEnabled := JS.VBool true |}.

(** * Properties *)

(** ** Chunking *)

Section Chunking.

Context {A : Type}.
Implicit Types (pgs fulls : list (list A)) (l done rest : list A).

Lemma length_concat_full P fulls :
  Forall (λ p, length p = P) fulls →
  length (concat fulls) = P * length fulls.
Proof.
  induction 1 as [|p fulls Hp _ IH]; simpl; [lia|].
  rewrite length_app, IH, Hp. lia.
Qed.

Lemma ceilDiv_spec n p k r :
  1 ≤ r ≤ p → n = p * k + r → ceilDiv n p = S k.
Proof.
  intros Hr ->. unfold ceilDiv. symmetry.
  apply (Nat.div_unique _ _ _ (r - 1)); lia.
Qed.

Lemma ceilDiv_0 p : 1 ≤ p → ceilDiv 0 p = 0.
Proof. intros Hp. unfold ceilDiv. apply Nat.div_small. lia. Qed.

(** The slot the next item goes to is the last page while it has room,
    and the first slot past the end otherwise. *)
Lemma chunkIndex_room P fulls l :
  Forall (λ p, length p = P) fulls → length l < P →
  length (concat (fulls ++ [l])) / P = length fulls.
Proof.
  intros Hf Hl. rewrite concat_app, length_app, (length_concat_full P) by done.
  simpl. rewrite app_nil_r. symmetry.
  apply (Nat.div_unique _ _ _ (length l)); lia.
Qed.

Lemma chunkIndex_full P fulls l :
  1 ≤ P → Forall (λ p, length p = P) fulls → length l = P →
  length (concat (fulls ++ [l])) / P = length (fulls ++ [l]).
Proof.
  intros HP Hf Hl. rewrite concat_app, !length_app, (length_concat_full P) by done.
  simpl. rewrite app_nil_r, Hl. symmetry.
  apply (Nat.div_unique _ _ _ 0); lia.
Qed.

Lemma get_fmap_Some (pgs : list (list A)) i :
  JS.get (Some <$> pgs) i = pgs !! i.
Proof.
  unfold JS.get. rewrite list_lookup_fmap. by destruct (pgs !! i).
Qed.

(** One turn of the [reduce] keeps the shape and appends the item. *)
Lemma chunkArray_step_chunked P pgs x :
  1 ≤ P → chunked P pgs →
  ∃ pgs', chunkArray_step P (Some <$> pgs) x (length (concat pgs))
          = Some <$> pgs'
          ∧ chunked P pgs'
          ∧ concat pgs' = concat pgs ++ [x].
Proof.
  intros HP [|fulls l Hf Hl].
  - exists [[x]]. split; [|split; [|done]].
    + unfold chunkArray_step. simpl. by rewrite Nat.Div0.div_0_l.
    + apply (chunked_snoc P [] [x]); [constructor | simpl; lia].
  - destruct (decide (length l < P)) as [Hroom|Hfull].
    + exists (fulls ++ [l ++ [x]]). split; [|split].
      * unfold chunkArray_step. rewrite chunkIndex_room by done.
        rewrite get_fmap_Some, list_lookup_middle by done.
        rewrite fmap_app, alter_app_r_alt by (rewrite length_fmap; lia).
        rewrite length_fmap, Nat.sub_diag. simpl. by rewrite fmap_app.
      * constructor; [done | rewrite length_app; simpl; lia].
      * rewrite !concat_app. simpl. by rewrite !app_nil_r, app_assoc.
    + exists ((fulls ++ [l]) ++ [[x]]). split; [|split].
      * unfold chunkArray_step. rewrite chunkIndex_full by (done || lia).
        rewrite get_fmap_Some, lookup_ge_None_2 by lia.
        unfold JS.set. rewrite length_fmap.
        destruct (decide _) as [?|_]; [lia|].
        rewrite Nat.sub_diag. simpl.
        rewrite alter_app_r_alt by (rewrite length_fmap; lia).
        rewrite length_fmap, Nat.sub_diag. simpl.
        by rewrite (fmap_app _ (fulls ++ [l]) [[x]]).
      * constructor; [|simpl; lia].
        apply Forall_app. split; [done|]. constructor; [lia|constructor].
      * by rewrite (concat_app (fulls ++ [l])); simpl.
Qed.

Lemma reduce_from_chunked P rest : ∀ pgs,
  1 ≤ P → chunked P pgs →
  ∃ pgs', JS.reduce_from (chunkArray_step P) rest (length (concat pgs))
            (Some <$> pgs) = Some <$> pgs'
          ∧ chunked P pgs'
          ∧ concat pgs' = concat pgs ++ rest.
Proof.
  induction rest as [|x rest IH]; intros pgs HP Hc; simpl.
  - exists pgs. by rewrite app_nil_r.
  - destruct (chunkArray_step_chunked P pgs x HP Hc) as (pgs1 & -> & Hc1 & Hcat).
    destruct (IH pgs1 HP Hc1) as (pgs' & Hred & Hc' & Hcat').
    exists pgs'. split; [|split; [done|]].
    + rewrite <- Hred, Hcat, length_app. simpl. f_equal. lia.
    + rewrite Hcat', Hcat. by rewrite <- app_assoc.
Qed.

Lemma chunked_count P pgs :
  1 ≤ P → chunked P pgs → length pgs = ceilDiv (length (concat pgs)) P.
Proof.
  intros HP [|fulls l Hf Hl].
  - simpl. by rewrite ceilDiv_0.
  - rewrite concat_app, !length_app, (length_concat_full P) by done.
    simpl. rewrite app_nil_r.
    rewrite (ceilDiv_spec _ P (length fulls) (length l)) by (done || lia). lia.
Qed.

Lemma chunked_sizes P pgs i p :
  chunked P pgs → pgs !! i = Some p →
  1 ≤ length p ≤ P ∧ (S i < length pgs → length p = P).
Proof.
  intros [|fulls l Hf Hl] Hi; [done|].
  apply lookup_app_Some in Hi as [Hi|[Hge Hi]].
  - pose proof (proj1 (Forall_lookup _ _) Hf i p Hi) as Hp. simpl in Hp.
    apply lookup_lt_Some in Hi. split; [|done].
    destruct Hl. lia.
  - apply list_lookup_singleton_Some in Hi as [Hi <-].
    split; [done|]. rewrite length_app. simpl. lia.
Qed.

End Chunking.

(** C6. For every route list and every page size [P >= 1], the pages
    memo with scrolling enabled is a hole-free array of [ceil(N / P)]
    pages, every page holds between 1 and [P] routes and every page but
    the last holds exactly [P], and the pages concatenated in order are
    the route list; with scrolling disabled the memo is the empty list. *)
Theorem pages_partition (state : NavigationState) (P : nat) :
  1 ≤ P →
  (∃ pgs : list (list Route),
      pages true state P = Some <$> pgs
      ∧ length pgs = ceilDiv (length (routes state)) P
      ∧ (∀ i p, pgs !! i = Some p →
                1 ≤ length p ≤ P ∧ (S i < length pgs → length p = P))
      ∧ concat pgs = routes state)
  ∧ pages false state P = [].
Proof.
  intros HP. split; [|done].
  destruct (reduce_from_chunked P (routes state) [] HP (chunked_nil P))
    as (pgs & Hred & Hc & Hcat).
  simpl in Hred, Hcat. exists pgs. repeat split.
  - exact Hred.
  - rewrite <- Hcat. by apply chunked_count.
  - by eapply chunked_sizes.
  - by eapply chunked_sizes.
  - intros Hi. by eapply (chunked_sizes P pgs i p).
  - done.
Qed.

(** [ceilDiv] is the ceiling of the quotient. *)
Lemma ceilDiv_ceiling n p :
  1 ≤ p → n ≤ p * ceilDiv n p < n + p.
Proof.
  intros Hp. unfold ceilDiv.
  pose proof (Nat.div_mod_eq (n + (p - 1)) p) as Hdm.
  pose proof (Nat.mod_upper_bound (n + (p - 1)) p ltac:(lia)) as Hlt.
  lia.
Qed.

Example chunkArray_five_by_two :
  chunkArray (routes five_tabs) 2
  = [ Some (route_of <$> ["Home"; "Feed"]);
      Some (route_of <$> ["Chat"; "Inbox"]);
      Some (route_of <$> ["Me"]) ].
Proof. reflexivity. Qed.

Example chunkArray_default_size :
  chunkArray [1; 2; 3; 4; 5; 6; 7; 8; 9] default_tabCountPerPage
  = [ Some [1; 2; 3; 4]; Some [5; 6; 7; 8]; Some [9] ].
Proof. reflexivity. Qed.

Lemma pages_partition_witness :
  (∃ pgs : list (list Route),
      pages true five_tabs 2 = Some <$> pgs
      ∧ length pgs = ceilDiv (length (routes five_tabs)) 2
      ∧ (∀ i p, pgs !! i = Some p →
                1 ≤ length p ≤ 2 ∧ (S i < length pgs → length p = 2))
      ∧ concat pgs = routes five_tabs)
  ∧ pages false five_tabs 2 = [].
Proof. apply (pages_partition five_tabs 2). lia. Defined.

(** ** Label orientation and height *)

Lemma Qgt_bool_iff (a b : Q) : Qgt_bool a b = true ↔ (b < a)%Q.
Proof.
  unfold Qgt_bool. rewrite negb_true_iff, <- not_true_iff_false, Qle_bool_iff.
  split; [apply Qnot_le_lt | apply Qlt_not_le].
Qed.

Section LayoutPolicies.

Context {StyleProp : Type}.
Variable Platform : PlatformStatic.
Variable flatten : StyleProp → option ViewStyle.
Variable add : Q → Q → Q.

Implicit Types (state : NavigationState)
  (descriptors : gmap string (Descriptor StyleProp))
  (layout dimensions : Size).

(** The callback of the [reduce] takes the width the specification
    describes. *)
Lemma itemWidth_configured (d : Descriptor StyleProp) :
  itemWidth flatten d
  = configuredItemWidth (flatten (tabBarItemStyle (options d))).
Proof.
  unfold itemWidth, configuredItemWidth.
  destruct (flatten (tabBarItemStyle (options d))) as [s|]; [|done]. simpl.
  destruct (style_width s) as [[w| |]|]; simpl; try done.
  all: by destruct (style_maxWidth s) as [[m| |]|].
Qed.

(** The [reduce] of the tablet branch adds the item widths up, from its
    start value and in the order of the routes. *)
Lemma maxTabWidth_fold descriptors (rs : list Route)
    (ds : list (Descriptor StyleProp)) :
  descriptorsOfRoutes descriptors rs ds →
  ∀ i acc,
    JS.reduce_from (maxTabWidth_step flatten add descriptors) rs i (Some acc)
    = Some (foldl (λ acc d,
                     add acc (configuredItemWidth
                                (flatten (tabBarItemStyle (options d)))))
                  acc ds).
Proof.
  induction 1 as [|r d rs ds Hd _ IH]; intros i acc; [done|].
  cbn [JS.reduce_from foldl]. unfold maxTabWidth_step at 2. simpl.
  rewrite Hd. simpl. rewrite itemWidth_configured. apply IH.
Qed.

Lemma routes_have_descriptors descriptors (rs : list Route) :
  (∀ r, r ∈ rs → is_Some (descriptors !! key r)) →
  ∃ ds, descriptorsOfRoutes descriptors rs ds.
Proof.
  induction rs as [|r rs IH]; intros Hall.
  - exists []. constructor.
  - destruct (Hall r) as [d Hd]; [by left|].
    destruct IH as [ds Hds]; [intros r' Hr'; apply Hall; by right|].
    exists (d :: ds). by constructor.
Qed.

Lemma focused_descriptor state descriptors :
  wellFormed state descriptors →
  ∃ focused d, routes state !! index state = Some focused
               ∧ descriptors !! key focused = Some d.
Proof.
  intros [Hi Hall].
  destruct (lookup_lt_is_Some_2 _ _ Hi) as [focused Hf].
  destruct (Hall focused) as [d Hd]; [by eapply list_elem_of_lookup_2|].
  by exists focused, d.
Qed.

(** On a well-formed state the orientation is always decided. *)
Lemma shouldUseHorizontalLabels_total state descriptors layout dimensions :
  wellFormed state descriptors →
  is_Some (shouldUseHorizontalLabels flatten add state descriptors layout
             dimensions).
Proof.
  intros Hwf. destruct (focused_descriptor _ _ Hwf) as (f & d & Hf & Hd).
  unfold shouldUseHorizontalLabels. rewrite Hf. simpl. rewrite Hd. simpl.
  destruct (tabBarLabelPosition (options d)) as [[]|]; [by eexists..|].
  destruct (Qle_bool 768 (width layout)); [|by eexists].
  destruct (routes_have_descriptors descriptors (routes state) (proj2 Hwf))
    as [ds Hds].
  unfold JS.reduce. rewrite (maxTabWidth_fold _ _ _ Hds). by eexists.
Qed.

Lemma is_ios_iff : is_ios Platform = true ↔ Platform_OS Platform = ios.
Proof. unfold is_ios. by destruct (Platform_OS Platform). Qed.

(** The configured width of an item: the explicit width, else the
    explicit maximal width, else the default. *)
Lemma itemWidth_width (d : Descriptor StyleProp) s w :
  flatten (tabBarItemStyle (options d)) = Some s →
  style_width s = Some (SNumber w) →
  itemWidth flatten d = w.
Proof. unfold itemWidth. by intros -> ->. Qed.

Lemma itemWidth_maxWidth (d : Descriptor StyleProp) s w :
  flatten (tabBarItemStyle (options d)) = Some s →
  (∀ w', style_width s ≠ Some (SNumber w')) →
  style_maxWidth s = Some (SNumber w) →
  itemWidth flatten d = w.
Proof.
  unfold itemWidth. intros -> Hw ->.
  destruct (style_width s) as [[w'| |]|]; try done. by destruct (Hw w').
Qed.

Lemma itemWidth_default (d : Descriptor StyleProp) :
  (∀ s, flatten (tabBarItemStyle (options d)) = Some s →
        (∀ w, style_width s ≠ Some (SNumber w))
        ∧ (∀ w, style_maxWidth s ≠ Some (SNumber w))) →
  itemWidth flatten d = DEFAULT_MAX_TAB_ITEM_WIDTH.
Proof.
  unfold itemWidth. intros H.
  destruct (flatten _) as [s|]; [|done].
  destruct (H s eq_refl) as [Hw Hm].
  destruct (style_width s) as [[w| |]|]; try by destruct (Hw w).
  all: destruct (style_maxWidth s) as [[w| |]|]; try done; by destruct (Hm w).
Qed.

(** C5. An explicit label position of the focused route decides alone:
    ["beside-icon"] gives horizontal labels and ["below-icon"] vertical
    ones. Without one, a container at least 768 wide has horizontal
    labels iff the item widths of all routes (the explicit width, else
    the explicit maximal width, else 125), added up in the order of the
    routes as the code adds them, come to at most the container width; a
    narrower container has them iff the device is wider than it is
    high. *)
Theorem shouldUseHorizontalLabels_policy state descriptors layout dimensions
    focused d :
  routes state !! index state = Some focused →
  descriptors !! key focused = Some d →
  (tabBarLabelPosition (options d) = Some BesideIcon →
   shouldUseHorizontalLabels flatten add state descriptors layout dimensions
   = Some true)
  ∧ (tabBarLabelPosition (options d) = Some BelowIcon →
     shouldUseHorizontalLabels flatten add state descriptors layout dimensions
     = Some false)
  ∧ (tabBarLabelPosition (options d) = None →
     (768 <= width layout)%Q →
     ∀ ds, descriptorsOfRoutes descriptors (routes state) ds →
     ∃ horizontal,
       shouldUseHorizontalLabels flatten add state descriptors layout
         dimensions = Some horizontal
       ∧ (horizontal = true
          ↔ (sumItemWidths add flatten ds <= width layout)%Q))
  ∧ (tabBarLabelPosition (options d) = None →
     ¬ (768 <= width layout)%Q →
     ∃ horizontal,
       shouldUseHorizontalLabels flatten add state descriptors layout
         dimensions = Some horizontal
       ∧ (horizontal = true
          ↔ (height dimensions < width dimensions)%Q)).
Proof.
  intros Hf Hd. unfold shouldUseHorizontalLabels.
  rewrite Hf. simpl. rewrite Hd. simpl.
  repeat split.
  - by intros ->.
  - by intros ->.
  - intros -> Hw ds Hds. apply Qle_bool_iff in Hw. rewrite Hw.
    unfold JS.reduce. rewrite (maxTabWidth_fold _ _ _ Hds). simpl.
    eexists. split; [done|]. apply Qle_bool_iff.
  - intros -> Hw.
    destruct (Qle_bool 768 (width layout)) eqn:Hb.
    + by apply Qle_bool_iff in Hb.
    + eexists. split; [done|]. apply Qgt_bool_iff.
Qed.

(** C4. A numeric height in the flattened style is returned as it is,
    whatever the other arguments. Otherwise the height is 32 plus the
    padding exactly on an iOS phone (not an iPad) in landscape with
    horizontal labels, and 49 plus the padding in every other case; the
    padding is the bottom inset less the platform offset (4 on iOS, 0
    elsewhere), and at least 0. *)
Theorem getTabBarHeight_policy state descriptors dimensions insets style
    layout :
  (∀ h, flatten style ≫= style_height = Some (SNumber h) →
        getTabBarHeight Platform flatten add state descriptors dimensions
          insets style layout = Some h)
  ∧ ((∀ h, flatten style ≫= style_height ≠ Some (SNumber h)) →
     wellFormed state descriptors →
     ∃ horizontal,
       shouldUseHorizontalLabels flatten add state descriptors layout dimensions
       = Some horizontal
       ∧ ((Platform_OS Platform = ios ∧ Platform_isPad Platform = false
           ∧ (height dimensions < width dimensions)%Q
           ∧ horizontal = true) →
          getTabBarHeight Platform flatten add state descriptors dimensions
            insets style layout
          = Some (32 + getPaddingBottom Platform insets)%Q)
       ∧ (¬ (Platform_OS Platform = ios ∧ Platform_isPad Platform = false
             ∧ (height dimensions < width dimensions)%Q
             ∧ horizontal = true) →
          getTabBarHeight Platform flatten add state descriptors dimensions
            insets style layout
          = Some (49 + getPaddingBottom Platform insets)%Q))
  ∧ (Platform_OS Platform = ios →
     getPaddingBottom Platform insets = Qmax (bottom insets - 4) 0)
  ∧ (Platform_OS Platform ≠ ios →
     getPaddingBottom Platform insets = Qmax (bottom insets - 0) 0).
Proof.
  split; [|split; [|split]].
  - intros h Hh. unfold getTabBarHeight. by rewrite Hh.
  - intros Hno Hwf.
    destruct (shouldUseHorizontalLabels_total state descriptors layout
                dimensions Hwf) as [horizontal Hh].
    exists horizontal. split; [done|].
    assert (getTabBarHeight Platform flatten add state descriptors dimensions
              insets style layout
            = if is_ios Platform && negb (Platform_isPad Platform)
                 && Qgt_bool (width dimensions) (height dimensions)
                 && horizontal
              then Some (32 + getPaddingBottom Platform insets)%Q
              else Some (49 + getPaddingBottom Platform insets)%Q) as ->.
    { unfold getTabBarHeight. rewrite Hh. simpl.
      destruct (flatten style ≫= style_height) as [[h| |]|]; try done.
      by destruct (Hno h). }
    split.
    + intros (Hos & Hpad & Hland & ->).
      apply is_ios_iff in Hos. apply Qgt_bool_iff in Hland.
      by rewrite Hos, Hpad, Hland.
    + intros Hnot.
      destruct (is_ios Platform) eqn:Hos; [|done].
      destruct (Platform_isPad Platform) eqn:Hpad; [done|].
      destruct (Qgt_bool _ _) eqn:Hland; [|done].
      destruct horizontal; [|done].
      destruct Hnot. by rewrite <- is_ios_iff, <- Qgt_bool_iff.
  - intros Hos. apply is_ios_iff in Hos. unfold getPaddingBottom.
    by rewrite Hos.
  - intros Hos. unfold getPaddingBottom.
    destruct (is_ios Platform) eqn:Hi; [|done]. by apply is_ios_iff in Hi.
Qed.

(** The padding is never negative. *)
Lemma getPaddingBottom_nonneg insets :
  (0 <= getPaddingBottom Platform insets)%Q.
Proof. unfold getPaddingBottom. apply Q.le_max_r. Qed.

End LayoutPolicies.

(** *** The policies on a tablet-wide bar with three routes *)

Example three_items_of_200_fit :
  shouldUseHorizontalLabels id JS.add64 three_tabs
      (descriptorsOf None (itemStyle 200))
    tabletLayout portrait = Some true.
Proof. reflexivity. Qed.

Example three_items_of_300_overflow :
  shouldUseHorizontalLabels id JS.add64 three_tabs
      (descriptorsOf None (itemStyle 300))
    tabletLayout portrait = Some false.
Proof. reflexivity. Qed.

Example below_icon_overrides_fit :
  shouldUseHorizontalLabels id JS.add64 three_tabs
    (descriptorsOf (Some BelowIcon) (itemStyle 200)) tabletLayout landscape
  = Some false.
Proof. reflexivity. Qed.

Example compact_height_on_phone :
  getTabBarHeight iPhone id JS.add64 three_tabs
      (descriptorsOf None None) landscape
    (insetsOf 21) None {| height := 0; width := 844 |}
  = Some (32 + Qmax (21 - 4) 0)%Q.
Proof. reflexivity. Qed.

Lemma three_tabs_wellFormed position item :
  wellFormed three_tabs (descriptorsOf position item).
Proof.
  split; [simpl; lia|].
  apply Forall_forall. repeat constructor; by eexists.
Defined.

Lemma shouldUseHorizontalLabels_policy_witness :
  shouldUseHorizontalLabels id JS.add64 three_tabs
    (descriptorsWithItems None [itemStyle 400; maxWidthStyle 300; None])
    tabletLayout portrait = Some false
  ∧ shouldUseHorizontalLabels id JS.add64 three_tabs
      (descriptorsOf (Some BesideIcon) (itemStyle 400)) tabletLayout portrait
    = Some true.
Proof.
  split.
  - destruct (shouldUseHorizontalLabels_policy id JS.add64 three_tabs
                (descriptorsWithItems None
                   [itemStyle 400; maxWidthStyle 300; None])
                tabletLayout portrait (route_of "Feed")
                {| options := optionsOf None (maxWidthStyle 300) |}
                eq_refl eq_refl) as (_ & _ & Hsum & _).
    destruct (Hsum eq_refl) with
      (ds := [ {| options := optionsOf None (itemStyle 400) |};
               {| options := optionsOf None (maxWidthStyle 300) |};
               {| options := optionsOf None None |} ])
      as (horizontal & -> & [Hfits _]).
    + apply Qle_bool_iff. reflexivity.
    + unfold descriptorsOfRoutes. repeat constructor.
    + destruct horizontal; [|reflexivity].
      apply Qle_bool_iff in Hfits; [|reflexivity].
      vm_compute in Hfits. discriminate.
  - apply (shouldUseHorizontalLabels_policy id JS.add64 three_tabs
             (descriptorsOf (Some BesideIcon) (itemStyle 400)) tabletLayout
             portrait (route_of "Feed")
             {| options := optionsOf (Some BesideIcon) (itemStyle 400) |}
             eq_refl eq_refl).
    reflexivity.
Defined.

(** The item widths 200.2, 317 and 299.7 on a container 816.9 wide: the
    sum the code computes rounds to just above the container width, so
    the labels are vertical, although the exact sum of the three numbers
    does not exceed it. *)
Example rounded_sum_exceeds_container :
  let items := [ itemStyle (JS.round64 (2002 # 10)); itemStyle 317;
                 itemStyle (JS.round64 (2997 # 10)) ] in
  let container := {| height := 49; width := JS.round64 (8169 # 10) |} in
  shouldUseHorizontalLabels id JS.add64 three_tabs
    (descriptorsWithItems None items) container portrait = Some false
  ∧ shouldUseHorizontalLabels id Qplus three_tabs
      (descriptorsWithItems None items) container portrait = Some true.
Proof. by vm_compute. Qed.

Example binary64_sum_of_tenths :
  (JS.add64 (JS.round64 (1 # 10)) (JS.round64 (2 # 10))
   == 5404319552844596 # 18014398509481984)%Q
  ∧ ¬ (JS.add64 (JS.round64 (1 # 10)) (JS.round64 (2 # 10))
       == JS.round64 (3 # 10))%Q.
Proof. split; [by vm_compute|]. intros H. by vm_compute in H. Qed.

Lemma getTabBarHeight_policy_witness :
  getTabBarHeight iPhone id JS.add64 three_tabs
      (descriptorsOf None None) landscape
    (insetsOf 21)
    (Some {| style_height := Some (SNumber 60);
             style_width := None;
             style_maxWidth := None |})
    tabletLayout = Some 60%Q
  ∧ getTabBarHeight iPhone id JS.add64 three_tabs
      (descriptorsOf None None) landscape
      (insetsOf 21) None {| height := 0; width := 844 |}
    = Some (32 + getPaddingBottom iPhone (insetsOf 21))%Q
  ∧ getPaddingBottom iPhone (insetsOf 21) = Qmax (21 - 4) 0.
Proof.
  split; [|split].
  - apply (getTabBarHeight_policy iPhone id JS.add64 three_tabs
             (descriptorsOf None None) landscape (insetsOf 21)
             (Some {| style_height := Some (SNumber 60);
                      style_width := None;
                      style_maxWidth := None |})
             tabletLayout).
    reflexivity.
  - destruct (getTabBarHeight_policy iPhone id JS.add64 three_tabs
                (descriptorsOf None None) landscape (insetsOf 21) None
                {| height := 0; width := 844 |}) as (_ & Hcomputed & _).
    destruct Hcomputed as (horizontal & Hh & Hcompact & _).
    + intros h. discriminate.
    + apply (three_tabs_wellFormed None None).
    + apply Hcompact.
      split; [reflexivity|]. split; [reflexivity|]. split.
      * apply Qgt_bool_iff. reflexivity.
      * vm_compute in Hh. congruence.
  - apply (getTabBarHeight_policy iPhone id JS.add64 three_tabs
             (descriptorsOf None None) landscape (insetsOf 21) None
             tabletLayout).
    reflexivity.
Defined.

(** ** Paging *)

Lemma strict_neq_Math_round_refl (n : JS.number) :
  JS.Math_round n ≠ JS.NaN →
  JS.strict_neq (JS.Math_round n) (JS.Math_round n) = false.
Proof.
  destruct n; simpl; try done.
  intros _. apply negb_false_iff, Qeq_bool_iff. reflexivity.
Qed.

(** C7. The handler of the scroll-settle event computes
    [round(offsetX / width)] and calls [setSelectedPage] with it exactly
    when it differs from the selected page, which is left alone
    otherwise; the same event once more leaves the selected page as it
    is, and calls the setter again only for the index [NaN] of [0 / 0],
    which differs from itself. The tab bar changes the selected page in
    no other way: without the handler a scroll-settle event leaves it
    alone. *)
Theorem onMomentumScrollEnd_selectedPage (quot : Q → Q → Q) (x w : Q)
    (selectedPage : JS.number) :
  let index := JS.Math_round (JS.div quot x w) in
  let settled := onMomentumScrollEnd quot x w selectedPage in
  (JS.strict_neq index selectedPage = true → settled = (index, Some index))
  ∧ (JS.strict_neq index selectedPage = false → settled = (selectedPage, None))
  ∧ (onMomentumScrollEnd quot x w settled.1).1 = settled.1
  ∧ (index ≠ JS.NaN → (onMomentumScrollEnd quot x w settled.1).2 = None)
  ∧ (∀ pagingIcons userHandler,
       scrollSettle quot pagingIcons userHandler x w selectedPage = settled
       ∨ scrollSettle quot pagingIcons userHandler x w selectedPage
         = (selectedPage, None)).
Proof.
  intros index settled. subst settled. unfold onMomentumScrollEnd.
  fold index. repeat split.
  - by intros ->.
  - by intros ->.
  - destruct (JS.strict_neq index selectedPage) eqn:Hne; simpl.
    + by destruct (JS.strict_neq index index).
    + by rewrite Hne.
  - intros Hnan. destruct (JS.strict_neq index selectedPage) eqn:Hne; simpl.
    + subst index. by rewrite strict_neq_Math_round_refl.
    + by rewrite Hne.
  - intros [] []; simpl; auto.
Qed.

Example scroll_to_second_page :
  onMomentumScrollEnd JS.div64 390 390 (JS.Fin 0) = (JS.Fin 1, Some (JS.Fin 1))
  ∧ onMomentumScrollEnd JS.div64 390 390 (JS.Fin 1) = (JS.Fin 1, None).
Proof. split; reflexivity. Qed.

Example scroll_rounds_half_up :
  (onMomentumScrollEnd JS.div64 195 390 (JS.Fin 0)).1 = JS.Fin 1
  ∧ (onMomentumScrollEnd JS.div64 194 390 (JS.Fin 0)).1 = JS.Fin 0.
Proof. split; reflexivity. Qed.

Lemma onMomentumScrollEnd_selectedPage_witness :
  onMomentumScrollEnd JS.div64 390 390 (JS.Fin 0) = (JS.Fin 1, Some (JS.Fin 1))
  ∧ (onMomentumScrollEnd JS.div64 390 390
       (onMomentumScrollEnd JS.div64 390 390 (JS.Fin 0)).1).2 = None.
Proof.
  split.
  - apply (onMomentumScrollEnd_selectedPage JS.div64 390 390 (JS.Fin 0)).
    reflexivity.
  - apply (onMomentumScrollEnd_selectedPage JS.div64 390 390 (JS.Fin 0)).
    discriminate.
Defined.

Lemma array_index_succ (k : Z) :
  JS.array_index (JS.add_fin (JS.Fin (inject_Z k)) 1)
  = if (0 <=? k + 1)%Z then Some (Z.to_nat (k + 1)) else None.
Proof.
  unfold JS.add_fin, JS.array_index. cbv zeta.
  assert (inject_Z k + 1 == inject_Z (k + 1))%Q as Heq
    by (rewrite inject_Z_plus; reflexivity).
  rewrite (Qfloor_comp _ _ Heq), Qfloor_Z.
  replace (Qeq_bool (inject_Z (k + 1)) (inject_Z k + 1)) with true; [done|].
  symmetry. apply Qeq_bool_iff. by symmetry.
Qed.

Lemma le_fin_integer (k : Z) :
  JS.le_fin (JS.Fin (inject_Z k)) 1 = true ↔ (k ≤ 1)%Z.
Proof. unfold JS.le_fin. by rewrite Qle_bool_iff, (Zle_Qle k 1). Qed.

Lemma ge_fin_integer (k : Z) :
  JS.ge_fin (JS.Fin (inject_Z k)) 1 = true ↔ (1 ≤ k)%Z.
Proof. unfold JS.ge_fin. by rewrite Qle_bool_iff, (Zle_Qle 1 k). Qed.

(** C8. With scrolling enabled the render draws the next-page affordance
    iff the selected page is at most 1 and [pages] has a page at the
    selected page plus one, and the previous-page affordance iff the
    selected page is at least 1; for the page number [k] that is
    [k <= 1] with a page at index [k + 1], and [1 <= k]. *)
Theorem pagingAffordances_visibility {A} (pgs : list (option A))
    (selectedPage : JS.number) :
  ∃ drawn,
    renderPagingAffordances true pgs selectedPage = Some drawn
    ∧ (rightIcon drawn = true
       ↔ JS.le_fin selectedPage 1 = true
         ∧ is_Some (pageAfter pgs selectedPage))
    ∧ (leftIcon drawn = true ↔ JS.ge_fin selectedPage 1 = true)
    ∧ (∀ k : Z, selectedPage = JS.Fin (inject_Z k) →
         (rightIcon drawn = true
          ↔ (k ≤ 1)%Z ∧ (0 ≤ k + 1)%Z
            ∧ is_Some (JS.get pgs (Z.to_nat (k + 1))))
         ∧ (leftIcon drawn = true ↔ (1 ≤ k)%Z)).
Proof.
  eexists. split; [reflexivity|]. simpl.
  assert (JS.le_fin selectedPage 1
          && bool_decide (is_Some (pageAfter pgs selectedPage)) = true
          ↔ JS.le_fin selectedPage 1 = true
            ∧ is_Some (pageAfter pgs selectedPage)) as Hright
    by (by rewrite andb_true_iff, bool_decide_eq_true).
  split; [exact Hright|]. split; [done|].
  intros k ->. rewrite Hright, le_fin_integer, ge_fin_integer.
  split; [|done].
  unfold pageAfter. rewrite array_index_succ.
  destruct (Z.leb_spec 0 (k + 1)) as [Hk|Hk]; simpl.
  - tauto.
  - split; [intros [_ [? [=]]] | lia].
Qed.

Example affordances_on_first_page :
  renderPagingAffordances true (pages true five_tabs 2) (JS.Fin 0)
  = Some {| rightIcon := true; leftIcon := false |}.
Proof. reflexivity. Qed.

Example affordances_on_middle_page :
  renderPagingAffordances true (pages true five_tabs 2) (JS.Fin 1)
  = Some {| rightIcon := true; leftIcon := true |}.
Proof. reflexivity. Qed.

Example affordances_on_last_page :
  renderPagingAffordances true (pages true five_tabs 2) (JS.Fin 2)
  = Some {| rightIcon := false; leftIcon := true |}.
Proof. reflexivity. Qed.

(** With one route a page, the third page of the five draws no next-page
    affordance, although a fourth page follows. *)
Example affordances_on_third_of_five :
  renderPagingAffordances true (pages true five_tabs 1) (JS.Fin 2)
  = Some {| rightIcon := false; leftIcon := true |}
  ∧ is_Some (pageAfter (pages true five_tabs 1) (JS.Fin 2)).
Proof. split; [reflexivity | by eexists]. Qed.

Lemma pagingAffordances_visibility_witness :
  ∃ drawn,
    renderPagingAffordances true (pages true five_tabs 2) (JS.Fin (inject_Z 1))
    = Some drawn
    ∧ rightIcon drawn = true ∧ leftIcon drawn = true.
Proof.
  destruct (pagingAffordances_visibility (pages true five_tabs 2)
              (JS.Fin (inject_Z 1))) as (drawn & Hdrawn & _ & _ & Hk).
  destruct (Hk 1%Z eq_refl) as [Hright Hleft].
  exists drawn. split; [exact Hdrawn|]. split.
  - apply Hright. split; [lia|]. split; [lia|]. by eexists.
  - apply Hleft. lia.
Defined.

(** ** Press handling and labels *)

(** C9. Pressing the tab of a route first emits a ["tabPress"] event
    that can be prevented, targeted at the key of the route; then, iff
    the route is not the focused one and the event was not prevented, it
    dispatches one ["NAVIGATE"] action for the name of the route, with
    [merge] set, targeted at the key of the state of this navigator; it
    makes no other call. *)
Theorem onPress_dispatch (state : NavigationState) (route : Route) (i : nat)
    (listeners : EmitOptions → bool) :
  let event := {| emit_type := "tabPress";
                  emit_target := key route;
                  canPreventDefault := Some true |} in
  let navigate := {| action_type := "NAVIGATE";
                     payload_name := name route;
                     payload_merge := true;
                     action_target := Some (state_key state) |} in
  ∃ after,
    runNav (onPress state route i) listeners = Emit event :: after
    ∧ (i ≠ index state ∧ listeners event = false → after = [Dispatch navigate])
    ∧ (i = index state ∨ listeners event = true → after = []).
Proof.
  intros event navigate.
  unfold runNav, onPress, nav_bind, navigation_emit. simpl.
  fold event. destruct (listeners event) eqn:Hprevented; simpl.
  - rewrite andb_false_r. simpl. exists []. repeat split.
    + by intros [_ ?].
  - rewrite andb_true_r.
    destruct (bool_decide_reflect (i = index state)) as [Hfocused|Hother];
      simpl.
    + exists []. repeat split. by intros [? _].
    + exists [Dispatch navigate]. repeat split. by intros [?|?].
Qed.

Lemma onPress_dispatch_witness :
  runNav (onPress three_tabs (route_of "Me") 2) (λ _, false)
  = [ Emit {| emit_type := "tabPress";
              emit_target := "Me-key";
              canPreventDefault := Some true |};
      Dispatch {| action_type := "NAVIGATE";
                  payload_name := "Me";
                  payload_merge := true;
                  action_target := Some "tab-1" |} ]
  ∧ runNav (onPress three_tabs (route_of "Feed") 1) (λ _, false)
    = [ Emit {| emit_type := "tabPress";
                emit_target := "Feed-key";
                canPreventDefault := Some true |} ].
Proof.
  split.
  - destruct (onPress_dispatch three_tabs (route_of "Me") 2 (λ _, false))
      as (after & -> & Hdispatch & _).
    rewrite Hdispatch; [reflexivity|]. split; [simpl; lia | reflexivity].
  - destruct (onPress_dispatch three_tabs (route_of "Feed") 1 (λ _, false))
      as (after & -> & _ & Hnone).
    rewrite Hnone; [reflexivity|]. by left.
Defined.

Example prevented_press_dispatches_nothing :
  runNav (onPress three_tabs (route_of "Me") 2) (λ _, true)
  = [ Emit {| emit_type := "tabPress";
              emit_target := "Me-key";
              canPreventDefault := Some true |} ].
Proof. reflexivity. Qed.

(** C10. The label of the item of a route is the [tabBarLabel] option
    when that is defined, else the [title] option when that is defined,
    else the name of the route; it is never [undefined]. *)
Theorem label_fallback {StyleProp} (opts : Options StyleProp) (route : Route) :
  (tabBarLabel opts ≠ JS.VUndefined → label opts route = tabBarLabel opts)
  ∧ (tabBarLabel opts = JS.VUndefined → title opts ≠ JS.VUndefined →
     label opts route = title opts)
  ∧ (tabBarLabel opts = JS.VUndefined → title opts = JS.VUndefined →
     label opts route = JS.VString (name route))
  ∧ label opts route ≠ JS.VUndefined.
Proof.
  unfold label.
  destruct (tabBarLabel opts) eqn:Hl; simpl; try by (repeat split).
  destruct (title opts) eqn:Ht; simpl; by repeat split.
Qed.

Lemma label_fallback_witness :
  label (optionsOf None None) (route_of "Feed") = JS.VString "Feed".
Proof.
  apply (label_fallback (optionsOf None None) (route_of "Feed")); reflexivity.
Defined.

(** ** The shim for the deprecated [tabBarOptions] *)

Lemma dropUndefined_lookup (m : gmap string JS.jsval) (k : string) :
  dropUndefined m !! k
  = match m !! k with
    | Some v => if JS.is_undefined v then None else Some v
    | None => None
    end.
Proof.
  unfold dropUndefined. rewrite map_lookup_filter.
  destruct (m !! k) as [v|]; simpl; [|done].
  case_guard as Hv; simpl in *; destruct (JS.is_undefined v); congruence.
Qed.

(** The first half of C1: the active tint colour of a bag is the
    [tabBarActiveTintColor] of the defaults, and an undefined one leaves
    no key behind. *)
Lemma defaultScreenOptions_activeTintColor (o : LegacyTabBarOptions)
    (lazy : option bool) :
  (defaultScreenOptions (Some o) lazy).1 !! "tabBarActiveTintColor"
  = if JS.is_undefined (activeTintColor o) then None
    else Some (activeTintColor o).
Proof.
  unfold defaultScreenOptions.
  assert ((dropUndefined (assignedOptions o ∪ ∅) : gmap string JS.jsval)
            !! "tabBarActiveTintColor"
          = if JS.is_undefined (activeTintColor o) then None
            else Some (activeTintColor o)) as Hdrop.
  { rewrite dropUndefined_lookup, (right_id_L ∅ (∪)).
    unfold assignedOptions.
    rewrite lookup_insert_ne by done. by rewrite lookup_insert_eq. }
  destruct lazy; simpl; [|done].
  by rewrite lookup_insert_ne.
Qed.

(** The display the shim computes is ["none"] for a truthy
    [tabBarVisible] and ["flex"] for any other. *)
Lemma defaultScreenOptions_display (o : LegacyTabBarOptions)
    (lazy : option bool) :
  displayOf <$> (defaultScreenOptions (Some o) lazy).1 !! "tabBarStyle"
  = Some [JS.VString (if JS.truthy (tabBarVisible o) then "none" else "flex")].
Proof.
  unfold defaultScreenOptions.
  assert (displayOf <$>
            (dropUndefined (assignedOptions o ∪ ∅) : gmap string JS.jsval)
              !! "tabBarStyle"
          = Some [JS.VString (if JS.truthy (tabBarVisible o) then "none"
                              else "flex")]) as Hdrop.
  { rewrite dropUndefined_lookup, (right_id_L ∅ (∪)).
    unfold assignedOptions.
    do 11 (rewrite lookup_insert_ne by done).
    by rewrite lookup_singleton_eq. }
  destruct lazy; simpl; [|done].
  by rewrite lookup_insert_ne.
Qed.

(** C1, on the code: for the bag [{ activeTintColor: "red",
    tabBarVisible: false }] the defaults carry
    [tabBarActiveTintColor: "red"], and their [tabBarStyle] carries
    [display: "flex"], not [display: "none"]. *)
Theorem tabBarVisible_false_displays_flex :
  let defaults := (defaultScreenOptions (Some redInvisibleBag) None).1 in
  defaults !! "tabBarActiveTintColor" = Some (JS.VString "red")
  ∧ displayOf <$> defaults !! "tabBarStyle" = Some [JS.VString "flex"]
  ∧ JS.VString "none" ∉ default [] (displayOf <$> defaults !! "tabBarStyle").
Proof.
  cbv zeta. split; [|split].
  - apply (defaultScreenOptions_activeTintColor redInvisibleBag None).
  - apply (defaultScreenOptions_display redInvisibleBag None).
  - rewrite (defaultScreenOptions_display redInvisibleBag None). simpl.
    by intros [=]%list_elem_of_singleton.
Qed.

Example tabBarVisible_true_displays_none :
  displayOf <$>
    (defaultScreenOptions
       (Some {| keyboardHidesTabBar := JS.VUndefined;
                activeTintColor := JS.VUndefined;
                inactiveTintColor := JS.VUndefined;
                activeBackgroundColor := JS.VUndefined;
                inactiveBackgroundColor := JS.VUndefined;
                allowFontScaling := JS.VUndefined;
                showLabel := JS.VUndefined;
                labelStyle := JS.VUndefined;
                iconStyle := JS.VUndefined;
                tabStyle := JS.VUndefined;
                labelPosition := JS.VUndefined;
                adaptive := JS.VUndefined;
                tabBarVisible := JS.VBool true |}) None).1 !! "tabBarStyle"
  = Some [JS.VString "none"].
Proof. apply defaultScreenOptions_display. Qed.

Example emptyBag_keeps_only_tabBarStyle :
  (defaultScreenOptions (Some emptyBag) None).1
  = {[ "tabBarStyle" :=
         JS.VArray [ JS.VObject [("display", JS.VString "flex")];
                     JS.VUndefined ] ]}.
Proof. by vm_compute. Qed.

(** ** The visibility machine *)

Section VisibilityMachine.

Variable Platform : PlatformStatic.

Implicit Types (st : TabBarVisibility)
  (cfg : option VisibilityAnimationConfig) (spec : option TransitionSpec).

Lemma animationSettings_toValue target duration spec :
  specTyped spec →
  animationSettings Platform target duration spec !! "toValue"
  = Some (JS.VNum target).
Proof.
  intros Htyped. unfold animationSettings.
  rewrite lookup_union_r; [by rewrite lookup_insert_eq|].
  destruct (spec ≫= config) as [c|] eqn:Hc; simpl; [|done].
  by destruct (Htyped c Hc).
Qed.

Lemma animationSettings_duration target duration spec :
  (spec ≫= config) ≫= (λ c, c !! "duration") = None →
  animationSettings Platform target duration spec !! "duration"
  = Some (JS.VNum duration).
Proof.
  intros Hnone. unfold animationSettings.
  rewrite lookup_union_r.
  - do 2 (rewrite lookup_insert_ne by done). by rewrite lookup_singleton_eq.
  - by destruct (spec ≫= config) as [c|].
Qed.

Lemma pickAnimation_default spec :
  animation <$> spec ≠ Some Spring → pickAnimation spec = Timing.
Proof.
  unfold pickAnimation. by destruct (animation <$> spec) as [[]|].
Qed.

(** Stopping touches the animated value only. *)
Lemma stopAnimation_state st :
  isTabBarHidden (stopAnimation st) = isTabBarHidden st
  ∧ lastShouldShow (stopAnimation st) = lastShouldShow st
  ∧ running (visible (stopAnimation st)) = None.
Proof.
  unfold stopAnimation.
  destruct (running (visible st)) as [a|] eqn:Ha; [|done].
  by destruct (onEnd a).
Qed.

Lemma startAnimation_state a st :
  isTabBarHidden (startAnimation a st) = isTabBarHidden st
  ∧ lastShouldShow (startAnimation a st) = lastShouldShow st
  ∧ visible (startAnimation a st) = {| resting := None; running := Some a |}.
Proof.
  unfold startAnimation. simpl.
  by destruct (stopAnimation_state st) as (-> & -> & _).
Qed.

(** The effect for [shouldShow = false]: the boolean is set before the
    hide animation starts. *)
Lemma visibilityEffect_hide cfg st :
  let st' := visibilityEffect Platform cfg false st in
  isTabBarHidden st' = true
  ∧ lastShouldShow st' = lastShouldShow st
  ∧ visible st'
    = {| resting := None;
         running :=
           Some {| driver := pickAnimation (cfg ≫= hide);
                   settings := animationSettings Platform 0 200 (cfg ≫= hide);
                   onEnd := NoCallback |} |}.
Proof.
  cbv zeta. unfold visibilityEffect. cbv zeta.
  by destruct (startAnimation_state
    {| driver := pickAnimation (cfg ≫= hide);
       settings := animationSettings Platform 0 200 (cfg ≫= hide);
       onEnd := NoCallback |} (setIsTabBarHidden true st))
    as (-> & -> & ->).
Qed.

(** The effect for [shouldShow = true]: the boolean is not touched. *)
Lemma visibilityEffect_show cfg st :
  let st' := visibilityEffect Platform cfg true st in
  isTabBarHidden st' = isTabBarHidden st
  ∧ lastShouldShow st' = lastShouldShow st
  ∧ visible st'
    = {| resting := None;
         running :=
           Some {| driver := pickAnimation (cfg ≫= show);
                   settings := animationSettings Platform 1 250 (cfg ≫= show);
                   onEnd := ShowCallback |} |}.
Proof.
  cbv zeta. unfold visibilityEffect. cbv zeta.
  by destruct (startAnimation_state
    {| driver := pickAnimation (cfg ≫= show);
       settings := animationSettings Platform 1 250 (cfg ≫= show);
       onEnd := ShowCallback |} st)
    as (-> & -> & ->).
Qed.

Lemma rerender_changed cfg shouldShow st :
  shouldShow ≠ lastShouldShow st →
  rerender Platform cfg shouldShow st
  = visibilityEffect Platform cfg shouldShow
      {| isTabBarHidden := isTabBarHidden st;
         visible := visible (stopAnimation st);
         lastShouldShow := shouldShow |}.
Proof.
  intros Hne. unfold rerender, visibilityCleanup.
  destruct (Bool.eqb_spec shouldShow (lastShouldShow st)) as [?|_]; [done|].
  by destruct (stopAnimation_state st) as (-> & _ & _).
Qed.

Lemma consistent_effect cfg shouldShow st :
  configTyped cfg →
  lastShouldShow st = shouldShow →
  consistent (visibilityEffect Platform cfg shouldShow st).
Proof.
  intros [Hshow Hhide] <-. unfold consistent.
  destruct (lastShouldShow st) eqn:Hlast.
  - destruct (visibilityEffect_show cfg st) as (_ & -> & ->).
    rewrite Hlast. simpl. split; [done|]. split; [|done].
    by apply animationSettings_toValue.
  - destruct (visibilityEffect_hide cfg st) as (-> & -> & ->).
    rewrite Hlast. simpl. split; [done|]. split; [|done].
    by apply animationSettings_toValue.
Qed.

Lemma consistent_animationEnd st :
  consistent st → consistent (animationEnd st).
Proof.
  intros [Hhidden Hvalue]. unfold animationEnd.
  destruct (running (visible st)) as [a|] eqn:Ha; [|by split; rewrite ?Ha].
  destruct Hvalue as [-> ->].
  destruct (lastShouldShow st) eqn:Hlast; unfold consistent; simpl;
    rewrite Hlast; [by auto|].
  split; [done|]. by split.
Qed.

(** Every state the component goes through is consistent. *)
Lemma reachable_consistent st : reachable Platform st → consistent st.
Proof.
  induction 1 as [cfg shouldShow Hcfg|cfg shouldShow st Hcfg _ IH|st _ IH].
  - by apply consistent_effect.
  - destruct (decide (shouldShow = lastShouldShow st)) as [Heq|Hne].
    + unfold rerender. by rewrite Heq, Bool.eqb_reflx.
    + rewrite rerender_changed by done. by apply consistent_effect.
  - by apply consistent_animationEnd.
Qed.

(** In a consistent state the four states of the machine are told apart
    by the side the bar should be on and by whether an animation runs. *)
Lemma visibilityState_consistent st :
  consistent st →
  visibilityState st
  = Some match lastShouldShow st, running (visible st) with
         | true, Some _ => Showing
         | true, None => Shown
         | false, Some _ => Hiding
         | false, None => Hidden
         end.
Proof.
  intros [Hhidden Hvalue]. unfold visibilityState.
  destruct (running (visible st)) as [a|].
  - destruct Hvalue as [-> _]. by destruct (lastShouldShow st).
  - destruct Hvalue as [-> _]. destruct (lastShouldShow st); [done|].
    simpl. by rewrite Hhidden.
Qed.

Lemma animationEnd_state st :
  lastShouldShow (animationEnd st) = lastShouldShow st
  ∧ (is_Some (running (visible st)) →
     running (visible (animationEnd st)) = None).
Proof.
  unfold animationEnd.
  destruct (running (visible st)) as [a|] eqn:Ha.
  - by destruct (onEnd a).
  - split; [done|]. by intros [? ?].
Qed.

Lemma shown_or_showing st :
  consistent st →
  visibilityState st = Some Shown ∨ visibilityState st = Some Showing →
  lastShouldShow st = true.
Proof.
  intros Hc. rewrite (visibilityState_consistent st Hc).
  destruct (lastShouldShow st), (running (visible st));
    by intros [[=]|[=]].
Qed.

Lemma hidden_or_hiding st :
  consistent st →
  visibilityState st = Some Hidden ∨ visibilityState st = Some Hiding →
  lastShouldShow st = false.
Proof.
  intros Hc. rewrite (visibilityState_consistent st Hc).
  destruct (lastShouldShow st), (running (visible st));
    by intros [[=]|[=]].
Qed.

(** C3. When the bar stops being due while it is shown or showing, the
    effect takes the container out of the layout flow at once, while
    the hide animation it starts is still running; that animation goes
    toward 0, is a timing animation unless the configuration asks for a
    spring, and lasts 200 unless the configuration gives a duration;
    once it completes the bar is hidden and still out of the flow. *)
Theorem hide_transition cfg st :
  reachable Platform st →
  visibilityState st = Some Shown ∨ visibilityState st = Some Showing →
  configTyped cfg →
  let hiding := rerender Platform cfg false st in
  outOfLayoutFlow hiding = true
  ∧ visibilityState hiding = Some Hiding
  ∧ (∃ a, running (visible hiding) = Some a
          ∧ toValue a = Some (JS.VNum 0)
          ∧ (animation <$> (cfg ≫= hide) ≠ Some Spring → driver a = Timing)
          ∧ (((cfg ≫= hide) ≫= config) ≫= (λ c, c !! "duration") = None →
             settings a !! "duration" = Some (JS.VNum 200)))
  ∧ visibilityState (animationEnd hiding) = Some Hidden
  ∧ outOfLayoutFlow (animationEnd hiding) = true.
Proof.
  intros Hreach Hstate Hcfg hiding.
  pose proof (reachable_consistent st Hreach) as Hc.
  pose proof (shown_or_showing st Hc Hstate) as Hlast.
  assert (reachable Platform hiding) as Hreach'
    by (by apply reachable_rerender).
  pose proof (reachable_consistent _ Hreach') as Hc'.
  pose proof (reachable_consistent _ (reachable_animationEnd _ _ Hreach'))
    as Hc''.
  assert (isTabBarHidden hiding = true
          ∧ lastShouldShow hiding = false
          ∧ visible hiding
            = {| resting := None;
                 running :=
                   Some {| driver := pickAnimation (cfg ≫= hide);
                           settings :=
                             animationSettings Platform 0 200 (cfg ≫= hide);
                           onEnd := NoCallback |} |})
    as (Hhidden & Hlast' & Hvisible).
  { subst hiding. rewrite rerender_changed by (by rewrite Hlast).
    apply visibilityEffect_hide. }
  destruct (animationEnd_state hiding) as [Hlast'' Hrun''].
  split; [exact Hhidden|]. split; [|split; [|split]].
  - rewrite (visibilityState_consistent _ Hc'), Hlast', Hvisible. done.
  - eexists. rewrite Hvisible. split; [reflexivity|]. simpl.
    split; [apply animationSettings_toValue, Hcfg|].
    split; [apply pickAnimation_default|apply animationSettings_duration].
  - rewrite (visibilityState_consistent _ Hc''), Hlast'', Hlast'.
    rewrite Hrun''; [done|]. rewrite Hvisible. by eexists.
  - destruct Hc'' as [Hout _]. unfold outOfLayoutFlow. apply Hout.
    by rewrite Hlast''.
Qed.

(** C2, as the code has it. When the bar becomes due while it is hidden
    or hiding, the effect starts the show animation at once: toward 1, a
    timing animation unless the configuration asks for a spring,
    lasting 250 unless the configuration gives a duration. The container
    is still out of the layout flow while that animation runs, and is
    back in the flow once it completes, when the bar is shown. *)
Theorem show_transition cfg st :
  reachable Platform st →
  visibilityState st = Some Hidden ∨ visibilityState st = Some Hiding →
  configTyped cfg →
  let showing := rerender Platform cfg true st in
  visibilityState showing = Some Showing
  ∧ (∃ a, running (visible showing) = Some a
          ∧ toValue a = Some (JS.VNum 1)
          ∧ (animation <$> (cfg ≫= show) ≠ Some Spring → driver a = Timing)
          ∧ (((cfg ≫= show) ≫= config) ≫= (λ c, c !! "duration") = None →
             settings a !! "duration" = Some (JS.VNum 250)))
  ∧ outOfLayoutFlow showing = true
  ∧ visibilityState (animationEnd showing) = Some Shown
  ∧ outOfLayoutFlow (animationEnd showing) = false.
Proof.
  intros Hreach Hstate Hcfg showing.
  pose proof (reachable_consistent st Hreach) as Hc.
  pose proof (hidden_or_hiding st Hc Hstate) as Hlast.
  assert (reachable Platform showing) as Hreach'
    by (by apply reachable_rerender).
  pose proof (reachable_consistent _ Hreach') as Hc'.
  pose proof (reachable_consistent _ (reachable_animationEnd _ _ Hreach'))
    as Hc''.
  assert (isTabBarHidden showing = true
          ∧ lastShouldShow showing = true
          ∧ visible showing
            = {| resting := None;
                 running :=
                   Some {| driver := pickAnimation (cfg ≫= show);
                           settings :=
                             animationSettings Platform 1 250 (cfg ≫= show);
                           onEnd := ShowCallback |} |})
    as (Hhidden & Hlast' & Hvisible).
  { subst showing. rewrite rerender_changed by (by rewrite Hlast).
    destruct (visibilityEffect_show cfg
      {| isTabBarHidden := isTabBarHidden st;
         visible := visible (stopAnimation st);
         lastShouldShow := true |}) as (-> & -> & ->).
    simpl. split; [|done]. destruct Hc as [Hout _]. by apply Hout. }
  destruct (animationEnd_state showing) as [Hlast'' Hrun''].
  assert (running (visible (animationEnd showing)) = None) as Hnone
    by (apply Hrun''; rewrite Hvisible; by eexists).
  split; [|split; [|split; [exact Hhidden|split]]].
  - rewrite (visibilityState_consistent _ Hc'), Hlast', Hvisible. done.
  - eexists. rewrite Hvisible. split; [reflexivity|]. simpl.
    split; [apply animationSettings_toValue, Hcfg|].
    split; [apply pickAnimation_default|apply animationSettings_duration].
  - by rewrite (visibilityState_consistent _ Hc''), Hlast'', Hlast', Hnone.
  - destruct Hc'' as [_ Hvalue]. rewrite Hnone in Hvalue.
    unfold outOfLayoutFlow. apply Hvalue. by rewrite Hlast''.
Qed.

End VisibilityMachine.

Lemma configTyped_None : configTyped None.
Proof. split; intros c; discriminate. Defined.

Example mount_shown_then_hide_then_show :
  let shown := animationEnd (mount iPhone None true) in
  let hiding := rerender iPhone None false shown in
  let hidden := animationEnd hiding in
  let showing := rerender iPhone None true hidden in
  (visibilityState shown, outOfLayoutFlow shown) = (Some Shown, false)
  ∧ (visibilityState hiding, outOfLayoutFlow hiding) = (Some Hiding, true)
  ∧ (visibilityState hidden, outOfLayoutFlow hidden) = (Some Hidden, true)
  ∧ (visibilityState showing, outOfLayoutFlow showing) = (Some Showing, true)
  ∧ (visibilityState (animationEnd showing),
     outOfLayoutFlow (animationEnd showing)) = (Some Shown, false).
Proof. by vm_compute. Qed.

(** C2, as stated, fails on the code: from the hidden bar the show
    animation starts with the container still out of the layout flow. *)
Lemma show_start_keeps_bar_out_of_flow :
  let hidden := animationEnd (mount iPhone None false) in
  visibilityState hidden = Some Hidden
  ∧ visibilityState (rerender iPhone None true hidden) = Some Showing
  ∧ outOfLayoutFlow (rerender iPhone None true hidden) = true
  ∧ ¬ (∀ cfg st,
         reachable iPhone st →
         visibilityState st = Some Hidden ∨ visibilityState st = Some Hiding →
         configTyped cfg →
         outOfLayoutFlow (rerender iPhone cfg true st) = false).
Proof.
  cbv zeta. split; [by vm_compute|]. split; [by vm_compute|].
  split; [by vm_compute|].
  intros Hclaim.
  specialize (Hclaim None (animationEnd (mount iPhone None false))).
  assert (outOfLayoutFlow
            (rerender iPhone None true (animationEnd (mount iPhone None false)))
          = true) as Hout by (by vm_compute).
  rewrite Hclaim in Hout; [done| |by left; vm_compute|apply configTyped_None].
  apply reachable_animationEnd, reachable_mount, configTyped_None.
Qed.

Lemma hide_transition_witness :
  let hiding := rerender iPhone None false (mount iPhone None true) in
  outOfLayoutFlow hiding = true
  ∧ visibilityState hiding = Some Hiding
  ∧ visibilityState (animationEnd hiding) = Some Hidden.
Proof.
  destruct (hide_transition iPhone None (mount iPhone None true))
    as (Hout & Hhiding & _ & Hhidden & _).
  - apply reachable_mount, configTyped_None.
  - right. reflexivity.
  - apply configTyped_None.
  - split; [exact Hout|]. split; [exact Hhiding|exact Hhidden].
Defined.

Lemma show_transition_witness :
  let showing :=
    rerender iPhone None true (animationEnd (mount iPhone None false)) in
  visibilityState showing = Some Showing
  ∧ outOfLayoutFlow showing = true
  ∧ outOfLayoutFlow (animationEnd showing) = false.
Proof.
  destruct (show_transition iPhone None (animationEnd (mount iPhone None false)))
    as (Hshowing & _ & Hout & _ & Hin).
  - apply reachable_animationEnd, reachable_mount, configTyped_None.
  - left. reflexivity.
  - apply configTyped_None.
  - split; [exact Hshowing|]. split; [exact Hout|exact Hin].
Defined.

(** * Further properties of the code *)

(** ** Where chunking puts a route *)

Section ChunkLocation.

Context {A : Type}.

Lemma concat_full_lookup P (fulls : list (list A)) :
  Forall (λ p, length p = P) fulls →
  ∀ j p r, fulls !! j = Some p → r < length p →
           concat fulls !! (P * j + r) = p !! r.
Proof.
  induction 1 as [|q fulls Hq _ IH]; intros j p r Hj Hr; [done|].
  destruct j as [|j]; simpl in *.
  - injection Hj as ->. rewrite Nat.mul_0_r. simpl. by apply lookup_app_l.
  - rewrite lookup_app_r by lia.
    replace (P * S j + r - length q) with (P * j + r) by lia.
    by apply IH.
Qed.

Lemma chunked_lookup P (pgs : list (list A)) :
  chunked P pgs →
  ∀ j p r, pgs !! j = Some p → r < length p →
           concat pgs !! (P * j + r) = p !! r.
Proof.
  intros [|fulls l Hf Hl] j p r Hj Hr; [done|].
  rewrite concat_app. simpl. rewrite app_nil_r.
  apply lookup_app_Some in Hj as [Hj|[Hge Hj]].
  - rewrite lookup_app_l.
    + by apply (concat_full_lookup P).
    + rewrite (length_concat_full P) by done.
      pose proof (lookup_lt_Some _ _ _ Hj) as Hlt.
      pose proof (proj1 (Forall_lookup _ _) Hf j p Hj) as Hp. simpl in Hp. nia.
  - apply list_lookup_singleton_Some in Hj as [Hj <-].
    rewrite lookup_app_r by (rewrite (length_concat_full P) by done; nia).
    rewrite (length_concat_full P) by done. f_equal. nia.
Qed.

Lemma chunked_page_of P (pgs : list (list A)) i :
  1 ≤ P → chunked P pgs → i < length (concat pgs) →
  ∃ p, pgs !! (i / P) = Some p ∧ i mod P < length p.
Proof.
  intros HP [|fulls l Hf Hl] Hi; [simpl in Hi; lia|].
  rewrite concat_app, length_app, (length_concat_full P) in Hi by done.
  simpl in Hi. rewrite app_nil_r in Hi.
  pose proof (Nat.div_mod_eq i P) as Hdm.
  pose proof (Nat.mod_upper_bound i P ltac:(lia)) as Hmod.
  destruct (decide (i / P < length fulls)) as [Hlt|Hge].
  - destruct (lookup_lt_is_Some_2 fulls (i / P) Hlt) as [p Hp].
    exists p. split; [by apply lookup_app_l_Some|].
    pose proof (proj1 (Forall_lookup _ _) Hf _ _ Hp) as Hlen. simpl in Hlen.
    lia.
  - assert (i / P = length fulls) as Heq by nia.
    exists l. rewrite Heq. split; [by apply list_lookup_middle|]. nia.
Qed.

End ChunkLocation.

(** X1. With scrolling enabled and a page size [P >= 1], the route at
    position [i] of the route list is on page [i / P], at position
    [i mod P] of that page. *)
Theorem pages_locate (state : NavigationState) (P i : nat) (route : Route) :
  1 ≤ P →
  routes state !! i = Some route →
  ∃ page, pages true state P !! (i / P) = Some (Some page)
          ∧ page !! (i mod P) = Some route.
Proof.
  intros HP Hroute.
  destruct (reduce_from_chunked P (routes state) [] HP (chunked_nil P))
    as (pgs & Hred & Hc & Hcat).
  simpl in Hred, Hcat.
  assert (i < length (concat pgs)) as Hi
    by (rewrite Hcat; by eapply lookup_lt_Some).
  destruct (chunked_page_of P pgs i HP Hc Hi) as (page & Hpage & Hr).
  exists page. split.
  - unfold pages, chunkArray, JS.reduce. rewrite Hred, list_lookup_fmap.
    by rewrite Hpage.
  - rewrite <- (chunked_lookup P pgs Hc _ _ _ Hpage Hr), Hcat.
    by rewrite <- (Nat.div_mod_eq i P).
Qed.

Lemma pages_locate_witness :
  ∃ page, pages true five_tabs 2 !! 1 = Some (Some page)
          ∧ page !! 1 = Some (route_of "Inbox").
Proof. apply (pages_locate five_tabs 2 3); [lia|reflexivity]. Defined.

(** X2. With scrolling enabled and a page size [P >= 1], on the page
    numbered [k] the next-page affordance is drawn iff [k <= 1] and more
    than [(k + 1) * P] routes exist, so never from the third page on,
    and the previous-page affordance is drawn iff [k >= 1]. *)
Theorem pagingAffordances_by_route_count (state : NavigationState)
    (P k : nat) :
  1 ≤ P →
  ∃ drawn,
    renderPagingAffordances true (pages true state P)
      (JS.Fin (inject_Z (Z.of_nat k))) = Some drawn
    ∧ (rightIcon drawn = true
       ↔ k ≤ 1 ∧ (k + 1) * P < length (routes state))
    ∧ (leftIcon drawn = true ↔ 1 ≤ k).
Proof.
  intros HP.
  destruct (reduce_from_chunked P (routes state) [] HP (chunked_nil P))
    as (pgs & Hred & Hc & Hcat).
  simpl in Hred, Hcat.
  pose proof (chunked_count P pgs HP Hc) as Hcount. rewrite Hcat in Hcount.
  pose proof (ceilDiv_ceiling (length (routes state)) P HP) as Hceil.
  eexists. split; [reflexivity|]. cbn [rightIcon leftIcon].
  rewrite andb_true_iff, bool_decide_eq_true.
  rewrite le_fin_integer, ge_fin_integer.
  unfold pageAfter. rewrite array_index_succ.
  destruct (Z.leb_spec 0 (Z.of_nat k + 1)) as [_|?]; [|lia]. simpl.
  replace (Z.to_nat (Z.of_nat k + 1)) with (S k) by lia.
  unfold pages, chunkArray, JS.reduce. rewrite Hred, get_fmap_Some.
  rewrite lookup_lt_is_Some, Hcount.
  split; [|lia]. split.
  - intros [Hk Hlt]. split; [lia|]. nia.
  - intros [Hk Hlt]. split; [lia|]. nia.
Qed.

Lemma pagingAffordances_by_route_count_witness :
  ∃ drawn,
    renderPagingAffordances true (pages true five_tabs 2)
      (JS.Fin (inject_Z (Z.of_nat 2))) = Some drawn
    ∧ (rightIcon drawn = true ↔ 2 ≤ 1 ∧ (2 + 1) * 2 < length (routes five_tabs))
    ∧ (leftIcon drawn = true ↔ 1 ≤ 2).
Proof. apply (pagingAffordances_by_route_count five_tabs 2 2). lia. Defined.

(** ** The page a scroll offset selects *)

Lemma round_band (q : Q) :
  let k := Qfloor (q + (1 # 2))%Q in
  (inject_Z k - (1 # 2) <= q)%Q ∧ (q < inject_Z k + (1 # 2))%Q.
Proof.
  intros k.
  pose proof (Qfloor_le (q + (1 # 2))) as Hlo.
  pose proof (Qlt_floor (q + (1 # 2))) as Hhi.
  fold k in Hlo, Hhi. rewrite inject_Z_plus in Hhi.
  change (inject_Z 1) with 1%Q in Hhi.
  split; lra.
Qed.

Lemma div_nonzero (quot : Q → Q → Q) (x w : Q) :
  ¬ (w == 0)%Q → JS.div quot x w = JS.Fin (quot x w).
Proof.
  intros Hw. unfold JS.div.
  destruct (Qeq_bool w 0) eqn:Hz; [|done].
  by apply Qeq_bool_iff in Hz.
Qed.

(** X3. For a viewport of a width other than 0, a scroll that settles
    selects the whole number nearest to the quotient of the offset by
    the width as the code computes it, a half going up: the page [k]
    with [k - 1/2 <= quotient < k + 1/2]; after the handler the selected
    page is that number. *)
Theorem scroll_selects_nearest_page (quot : Q → Q → Q) (x w : Q)
    (selectedPage : JS.number) :
  ¬ (w == 0)%Q →
  ∃ k : Z,
    JS.Math_round (JS.div quot x w) = JS.Fin (inject_Z k)
    ∧ (inject_Z k - (1 # 2) <= quot x w)%Q
    ∧ (quot x w < inject_Z k + (1 # 2))%Q
    ∧ ∃ q, (onMomentumScrollEnd quot x w selectedPage).1 = JS.Fin q
           ∧ (q == inject_Z k)%Q.
Proof.
  intros Hw. exists (Qfloor (quot x w + (1 # 2))%Q).
  destruct (round_band (quot x w)) as [Hlo Hhi].
  unfold onMomentumScrollEnd. rewrite (div_nonzero quot x w Hw).
  cbn [JS.Math_round]. repeat split; [done..|].
  destruct (JS.strict_neq _ selectedPage) eqn:Hne; cbn [fst].
  - eexists. split; [reflexivity|]. reflexivity.
  - destruct selectedPage as [y| | |]; try done.
    exists y. split; [done|]. symmetry.
    apply Qeq_bool_iff. cbn [JS.strict_neq] in Hne.
    by apply negb_false_iff in Hne.
Qed.

Lemma scroll_selects_nearest_page_witness :
  ∃ k : Z,
    JS.Math_round (JS.div JS.div64 800 390) = JS.Fin (inject_Z k)
    ∧ (inject_Z k - (1 # 2) <= JS.div64 800 390)%Q
    ∧ (JS.div64 800 390 < inject_Z k + (1 # 2))%Q
    ∧ ∃ q, (onMomentumScrollEnd JS.div64 800 390 (JS.Fin 0)).1 = JS.Fin q
           ∧ (q == inject_Z k)%Q.
Proof.
  apply (scroll_selects_nearest_page JS.div64 800 390 (JS.Fin 0)).
  discriminate.
Defined.

(** The quotient of the numbers nearest to 589.05 and 392.7 rounds to
    exactly 1.5, which selects page 2, although the exact quotient of
    the two is below 1.5. *)
Example rounded_quotient_on_a_half :
  let x := JS.round64 (58905 # 100) in
  let w := JS.round64 (3927 # 10) in
  (onMomentumScrollEnd JS.div64 x w (JS.Fin 0)).1 = JS.Fin 2
  ∧ (JS.div64 x w == 3 # 2)%Q
  ∧ (x / w < 3 # 2)%Q.
Proof. by vm_compute. Qed.

(** X4. With a viewport of width 0 the quotient is no finite number:
    from a finite selected page the handler selects an infinity or [NaN];
    on that page the next-page affordance is never drawn, and the
    previous-page one is drawn exactly for a positive offset. *)
Theorem scroll_with_zero_width {A} (quot : Q → Q → Q) (x q : Q)
    (pgs : list (option A)) :
  let index := JS.Math_round (JS.div quot x 0) in
  (∀ r, index ≠ JS.Fin r)
  ∧ (onMomentumScrollEnd quot x 0 (JS.Fin q)).1 = index
  ∧ rightIcon <$> renderPagingAffordances true pgs index = Some false
  ∧ (leftIcon <$> renderPagingAffordances true pgs index = Some true
     ↔ (0 < x)%Q).
Proof.
  cbv zeta. unfold onMomentumScrollEnd, JS.div.
  change (Qeq_bool 0 0) with true. cbv iota.
  rewrite (Qgt_alt x 0).
  destruct (x ?= 0)%Q eqn:Hx; cbn; repeat split; try done.
  all: by intros [=].
Qed.

(** ** When the layout policies answer, and with what *)

Section LayoutEdges.

Context {StyleProp : Type}.
Variable Platform : PlatformStatic.
Variable flatten : StyleProp → option ViewStyle.
Variable add : Q → Q → Q.

Implicit Types (state : NavigationState)
  (descriptors : gmap string (Descriptor StyleProp))
  (layout dimensions : Size).

Lemma maxTabWidth_None descriptors (rs : list Route) i :
  JS.reduce_from (maxTabWidth_step flatten add descriptors) rs i None = None.
Proof. revert i. induction rs as [|r rs IH]; intros i; simpl; [done|apply IH]. Qed.

Lemma maxTabWidth_Some_inv descriptors (rs : list Route) :
  ∀ i acc,
    is_Some (JS.reduce_from (maxTabWidth_step flatten add descriptors) rs i
               (Some acc)) →
    ∀ r, r ∈ rs → is_Some (descriptors !! key r).
Proof.
  induction rs as [|r rs IH]; intros i acc Hsome r' Hr'.
  - by apply elem_of_nil in Hr'.
  - cbn [JS.reduce_from] in Hsome.
    unfold maxTabWidth_step at 2 in Hsome. simpl in Hsome.
    destruct (descriptors !! key r) as [d|] eqn:Hd; simpl in Hsome.
    + apply elem_of_cons in Hr' as [->|Hr']; [by rewrite Hd|].
      by eapply IH.
    + rewrite maxTabWidth_None in Hsome. by destruct Hsome.
Qed.

(** X5. [shouldUseHorizontalLabels] answers exactly when the index
    points at a route that has a descriptor and, where the tablet rule
    applies (no label position on the focused route, container at least
    768 wide), every route has a descriptor; in every other case it
    throws. *)
Theorem shouldUseHorizontalLabels_defined state descriptors layout
    dimensions :
  is_Some (shouldUseHorizontalLabels flatten add state descriptors layout
             dimensions)
  ↔ ∃ focused d,
      routes state !! index state = Some focused
      ∧ descriptors !! key focused = Some d
      ∧ (tabBarLabelPosition (options d) = None →
         (768 <= width layout)%Q →
         ∀ r, r ∈ routes state → is_Some (descriptors !! key r)).
Proof.
  unfold shouldUseHorizontalLabels. split.
  - destruct (routes state !! index state) as [focused|] eqn:Hf;
      [|by intros [? ?]].
    simpl. destruct (descriptors !! key focused) as [d|] eqn:Hd;
      [|by intros [? ?]].
    simpl. intros Hsome. exists focused, d. split; [done|]. split; [done|].
    intros Hpos Hw. rewrite Hpos in Hsome.
    apply Qle_bool_iff in Hw. rewrite Hw in Hsome.
    unfold JS.reduce in Hsome.
    destruct (JS.reduce_from _ _ _ _) as [s|] eqn:Hs; [|by destruct Hsome].
    eapply maxTabWidth_Some_inv. by rewrite Hs.
  - intros (focused & d & -> & Hd & Hall). simpl. rewrite Hd. simpl.
    destruct (tabBarLabelPosition (options d)) as [[]|]; [by eexists..|].
    destruct (Qle_bool 768 (width layout)) eqn:Hw; [|by eexists].
    apply Qle_bool_iff in Hw.
    destruct (routes_have_descriptors descriptors (routes state)
                (Hall eq_refl Hw)) as [ds Hds].
    unfold JS.reduce. rewrite (maxTabWidth_fold flatten add _ _ _ Hds).
    by eexists.
Qed.

(** X6. [getTabBarHeight] answers exactly when the style gives a numeric
    height or the orientation policy answers; a height it computes (no
    numeric height in the style) is at least 32 and at least the bottom
    padding. *)
Theorem getTabBarHeight_defined_and_bounded state descriptors dimensions
    insets style layout :
  (is_Some (getTabBarHeight Platform flatten add state descriptors dimensions
              insets style layout)
   ↔ (∃ h, flatten style ≫= style_height = Some (SNumber h))
     ∨ is_Some (shouldUseHorizontalLabels flatten add state descriptors layout
                  dimensions))
  ∧ (∀ h, (∀ c, flatten style ≫= style_height ≠ Some (SNumber c)) →
          getTabBarHeight Platform flatten add state descriptors dimensions
            insets style layout = Some h →
          (32 <= h)%Q ∧ (getPaddingBottom Platform insets <= h)%Q).
Proof.
  pose proof (getPaddingBottom_nonneg Platform insets) as Hpad.
  unfold getTabBarHeight. split.
  - destruct (flatten style ≫= style_height) as [[c| |]|] eqn:Hstyle.
    1: { split; [intros _; left; by exists c | by eexists]. }
    all: destruct (shouldUseHorizontalLabels _ _ _ _ _) as [b|]; simpl.
    all: split.
    all: try (intros _; right; by eexists).
    all: try (intros _; destruct (_ && _); by eexists).
    all: try (by intros [? [=]]).
    all: by intros [[? [=]]|[? [=]]].
  - intros h Hno.
    destruct (flatten style ≫= style_height) as [[c| |]|] eqn:Hstyle;
      [by destruct (Hno c)|..].
    all: destruct (shouldUseHorizontalLabels _ _ _ _ _) as [b|]; simpl;
      [|done].
    all: destruct (_ && _); intros [= <-];
      unfold COMPACT_TABBAR_HEIGHT, DEFAULT_TABBAR_HEIGHT; split; lra.
Qed.

Lemma sum_of_defaults descriptors (rs : list Route) :
  (∀ r, r ∈ rs →
        ∃ d, descriptors !! key r = Some d
             ∧ flatten (tabBarItemStyle (options d)) = None) →
  ∀ i acc,
    JS.reduce_from (maxTabWidth_step flatten add descriptors) rs i (Some acc)
    = Some (Nat.iter (length rs) (λ sum, add sum 125%Q) acc).
Proof.
  induction rs as [|r rs IH]; intros Hall i acc; [done|].
  destruct (Hall r) as (d & Hd & Hnone); [by left|].
  cbn [JS.reduce_from length]. rewrite Nat.iter_succ_r.
  unfold maxTabWidth_step at 2. simpl. rewrite Hd. simpl.
  unfold itemWidth. rewrite Hnone.
  apply IH. intros r' Hr'. apply Hall. by right.
Qed.

(** X7. On a container at least 768 wide, when the focused route sets no
    label position and no route has an item style, the labels are
    horizontal iff 125 added once for each route, as the code adds it,
    comes to at most the container width; whenever that sum is exact, as
    a sum of whole numbers is, that is iff 125 times the number of
    routes fits in the container width. *)
Theorem tablet_default_item_widths state descriptors layout dimensions
    focused d :
  routes state !! index state = Some focused →
  descriptors !! key focused = Some d →
  tabBarLabelPosition (options d) = None →
  (768 <= width layout)%Q →
  (∀ r, r ∈ routes state →
        ∃ d', descriptors !! key r = Some d'
              ∧ flatten (tabBarItemStyle (options d')) = None) →
  ∃ horizontal,
    shouldUseHorizontalLabels flatten add state descriptors layout dimensions
    = Some horizontal
    ∧ (horizontal = true
       ↔ (Nat.iter (length (routes state)) (λ sum, add sum 125) 0
          <= width layout)%Q)
    ∧ ((Nat.iter (length (routes state)) (λ sum, add sum 125) 0
        == 125 * inject_Z (Z.of_nat (length (routes state))))%Q →
       (horizontal = true
        ↔ (125 * inject_Z (Z.of_nat (length (routes state)))
           <= width layout)%Q)).
Proof.
  intros Hf Hd Hpos Hw Hall. unfold shouldUseHorizontalLabels.
  rewrite Hf. simpl. rewrite Hd. simpl. rewrite Hpos.
  apply Qle_bool_iff in Hw. rewrite Hw.
  unfold JS.reduce. rewrite (sum_of_defaults descriptors _ Hall). simpl.
  eexists. split; [done|]. split; [apply Qle_bool_iff|].
  intros Hexact. by rewrite Qle_bool_iff, Hexact.
Qed.

(** X8. Widening a container that is at least 768 wide never turns
    horizontal labels into vertical ones. *)
Theorem wider_container_keeps_horizontal state descriptors layout layout'
    dimensions :
  (768 <= width layout)%Q →
  (width layout <= width layout')%Q →
  shouldUseHorizontalLabels flatten add state descriptors layout dimensions
  = Some true →
  shouldUseHorizontalLabels flatten add state descriptors layout' dimensions
  = Some true.
Proof.
  intros Hw Hle. unfold shouldUseHorizontalLabels.
  destruct (routes state !! index state) as [focused|]; [|done]. simpl.
  destruct (descriptors !! key focused) as [d|]; [|done]. simpl.
  destruct (tabBarLabelPosition (options d)) as [[]|]; [done..|].
  assert (768 <= width layout')%Q as Hw' by (by eapply Qle_trans).
  apply Qle_bool_iff in Hw, Hw'. rewrite Hw, Hw'.
  destruct (JS.reduce _ _ _) as [s|]; [|done]. simpl.
  intros [= Hfit]. f_equal. apply Qle_bool_iff.
  apply Qle_bool_iff in Hfit. by eapply Qle_trans.
Qed.

End LayoutEdges.

Example out_of_range_index_throws :
  shouldUseHorizontalLabels id JS.add64
    {| state_key := "tab-1"; index := 3; routes := routes three_tabs |}
    (descriptorsOf None None) tabletLayout portrait = None.
Proof. reflexivity. Qed.

Example custom_height_needs_no_routes :
  getTabBarHeight iPhone id JS.add64
    {| state_key := "tab-1"; index := 0; routes := [] |} ∅ portrait
    (insetsOf 0)
    (Some {| style_height := Some (SNumber 60);
             style_width := None;
             style_maxWidth := None |})
    tabletLayout = Some 60%Q.
Proof. reflexivity. Qed.

Lemma getTabBarHeight_defined_and_bounded_witness :
  (32 <= 49 + getPaddingBottom iPhone (insetsOf 21))%Q
  ∧ (getPaddingBottom iPhone (insetsOf 21)
     <= 49 + getPaddingBottom iPhone (insetsOf 21))%Q.
Proof.
  apply (getTabBarHeight_defined_and_bounded iPhone id JS.add64 three_tabs
           (descriptorsOf None None) portrait (insetsOf 21) None tabletLayout).
  - intros c. discriminate.
  - reflexivity.
Defined.

Lemma tablet_default_item_widths_witness :
  ∃ horizontal,
    shouldUseHorizontalLabels id JS.add64 three_tabs (descriptorsOf None None)
      tabletLayout portrait = Some horizontal
    ∧ (horizontal = true
       ↔ (125 * inject_Z (Z.of_nat (length (routes three_tabs)))
          <= width tabletLayout)%Q).
Proof.
  destruct (tablet_default_item_widths id JS.add64 three_tabs
              (descriptorsOf None None) tabletLayout portrait
              (route_of "Feed") {| options := optionsOf None None |})
    as (horizontal & Hh & _ & Hexact).
  - reflexivity.
  - reflexivity.
  - reflexivity.
  - apply Qle_bool_iff. reflexivity.
  - apply Forall_forall. repeat constructor; by eexists.
  - exists horizontal. split; [exact Hh|]. apply Hexact. by vm_compute.
Defined.

Lemma wider_container_keeps_horizontal_witness :
  shouldUseHorizontalLabels id JS.add64 three_tabs
      (descriptorsOf None (itemStyle 200))
    {| height := 49; width := 1024 |} portrait = Some true.
Proof.
  apply (wider_container_keeps_horizontal id JS.add64 three_tabs
           (descriptorsOf None (itemStyle 200)) tabletLayout).
  - apply Qle_bool_iff. reflexivity.
  - apply Qle_bool_iff. reflexivity.
  - reflexivity.
Defined.

(** ** What the visibility effect keeps *)

Section VisibilityInvariants.

Variable Platform : PlatformStatic.

Implicit Types (st : TabBarVisibility)
  (cfg : option VisibilityAnimationConfig).





(** X11. The animation the effect starts takes its kind from the
    configuration of its direction, and every key of the configured bag
    displaces the setting of the effect with that name, [toValue] and
    [useNativeDriver] included; the keys the bag does not mention keep
    the values of the effect: the end value, the native-driver flag (off
    on the web only) and the default duration. *)
Theorem configured_animation cfg (shouldShow : bool) st
    (spec : TransitionSpec) :
  cfg ≫= (if shouldShow then show else hide) = Some spec →
  ∃ a,
    running (visible (visibilityEffect Platform cfg shouldShow st)) = Some a
    ∧ driver a = animation spec
    ∧ ∀ k,
        settings a !! k
        = match config spec ≫= (λ c, c !! k) with
          | Some v => Some v
          | None =>
              ({[ "toValue" := JS.VNum (if shouldShow then 1 else 0);
                  "useNativeDriver" := JS.VBool (useNativeDriver Platform);
                  "duration" := JS.VNum (if shouldShow then 250 else 200) ]}
                 : gmap string JS.jsval) !! k
          end.
Proof.
  intros Hspec. destruct shouldShow.
  - destruct (visibilityEffect_show Platform cfg st) as (_ & _ & ->).
    eexists. split; [reflexivity|]. cbn [driver settings]. rewrite Hspec.
    split; [unfold pickAnimation; simpl; by destruct (animation spec)|].
    intros k. unfold animationSettings. rewrite lookup_union. simpl.
    destruct (config spec) as [c|]; simpl.
    + match goal with |- _ ∪ ?x = _ => by destruct (c !! k), x end.
    + rewrite lookup_empty.
      match goal with |- _ ∪ ?x = _ => by destruct x end.
  - destruct (visibilityEffect_hide Platform cfg st) as (_ & _ & ->).
    eexists. split; [reflexivity|]. cbn [driver settings]. rewrite Hspec.
    split; [unfold pickAnimation; simpl; by destruct (animation spec)|].
    intros k. unfold animationSettings. rewrite lookup_union. simpl.
    destruct (config spec) as [c|]; simpl.
    + match goal with |- _ ∪ ?x = _ => by destruct (c !! k), x end.
    + rewrite lookup_empty.
      match goal with |- _ ∪ ?x = _ => by destruct x end.
Qed.



End VisibilityInvariants.



Lemma configured_animation_witness :
  ∃ a,
    running (visible (visibilityEffect iPhone (Some quickSpringHide) false
                        (mount iPhone None true))) = Some a
    ∧ driver a = Spring
    ∧ settings a !! "duration" = Some (JS.VNum 100)
    ∧ settings a !! "toValue" = Some (JS.VNum 0).
Proof.
  destruct (configured_animation iPhone (Some quickSpringHide) false
              (mount iPhone None true)
              {| animation := Spring;
                 config := Some {[ "duration" := JS.VNum 100 ]} |} eq_refl)
    as (a & Ha & Hdriver & Hsettings).
  exists a. split; [exact Ha|]. split; [exact Hdriver|].
  split; rewrite Hsettings; reflexivity.
Defined.


Example keyboard_hides_and_restores_bar :
  let shown := animationEnd (mount iPhone None (shouldShowTabBar (Some true) false)) in
  let typing :=
    visibilityRun iPhone [Rendered (Some true) true None] shown in
  let done_typing :=
    visibilityRun iPhone
      [Rendered (Some true) false None; AnimationFinished] typing in
  (visibilityState typing, outOfLayoutFlow typing) = (Some Hiding, true)
  ∧ (visibilityState done_typing, outOfLayoutFlow done_typing)
    = (Some Shown, false).
Proof. by vm_compute. Qed.

(** ** Accessibility labels *)

(** X13. The item gets no accessibility label exactly when its
    [tabBarAccessibilityLabel] option is undefined and either the
    platform is not iOS or its label is not a string (a render function,
    say); a route that sets no label option at all is announced on iOS by
    its name, followed by its position counted from 1 and the number of
    routes. *)
Theorem accessibilityLabel_cases {StyleProp} (Platform : PlatformStatic)
    (explicit : JS.jsval) (opts : Options StyleProp) (route : Route)
    (i count : nat) :
  (accessibilityLabel Platform explicit (label opts route) i count
   = JS.VUndefined
   ↔ explicit = JS.VUndefined
     ∧ (Platform_OS Platform ≠ ios
        ∨ ∀ text, label opts route ≠ JS.VString text))
  ∧ (explicit = JS.VUndefined →
     tabBarLabel opts = JS.VUndefined → title opts = JS.VUndefined →
     Platform_OS Platform = ios →
     accessibilityLabel Platform explicit (label opts route) i count
     = JS.VString (name route +:+ ", tab, " +:+ pretty (i + 1) +:+ " of "
                     +:+ pretty count)).
Proof.
  split.
  - unfold accessibilityLabel.
    pose proof (is_ios_iff Platform) as Hios.
    destruct explicit; simpl; try (split; [done|by intros [[=] _]]).
    destruct (label opts route) as [| | | |text| | |]; simpl.
    all: try (split; [intros _; split; [done|by right]|done]).
    destruct (is_ios Platform) eqn:Hi.
    + split; [done|]. intros [_ [Hn|Hn]].
      * destruct Hn. by apply Hios.
      * by destruct (Hn text).
    + split; [|done]. intros _. split; [done|]. left. intros Hn.
      apply Hios in Hn. congruence.
  - intros -> Hl Ht Hos. unfold label. rewrite Hl, Ht. simpl.
    apply (is_ios_iff Platform) in Hos. unfold accessibilityLabel. simpl.
    by rewrite Hos.
Qed.

Lemma accessibilityLabel_cases_witness :
  accessibilityLabel iPhone JS.VUndefined
    (label (optionsOf None None) (route_of "Feed")) 1 3
  = JS.VString "Feed, tab, 2 of 3".
Proof.
  apply (accessibilityLabel_cases iPhone JS.VUndefined (optionsOf None None)
           (route_of "Feed") 1 3); reflexivity.
Defined.

(** ** The item width from [itemCountByPage] *)

(** X14. With [itemCountByPage] set, the navigator writes the window
    width divided by that count, as the code computes the quotient, as
    the [width] of [tabBarItemStyle], and keeps every other property of
    the style and every other option; the width is a finite number for
    every count other than 0, and an infinity or [NaN] for the count
    0. *)
Theorem injectItemWidth_width (quot : Q → Q → Q) (windowWidth count : Q)
    (so : ScreenOptions) :
  itemCountByPage so = Some count →
  ∃ so' style',
    injectItemWidth quot windowWidth (Some so) = Some so'
    ∧ itemCountByPage so' = Some count
    ∧ screen_scrollEnabled so' = screen_scrollEnabled so
    ∧ screen_tabBarItemStyle so' = Some style'
    ∧ (∀ k, k ≠ "width" →
            style' !! k = default ∅ (screen_tabBarItemStyle so) !! k)
    ∧ (¬ (count == 0)%Q →
       style' !! "width" = Some (ItemNumber (JS.Fin (quot windowWidth count))))
    ∧ ((count == 0)%Q →
       ∃ n, style' !! "width" = Some (ItemNumber n) ∧ ∀ w, n ≠ JS.Fin w).
Proof.
  intros Hcount. unfold injectItemWidth. rewrite Hcount.
  eexists _, _. split; [reflexivity|]. simpl.
  repeat split.
  - intros k Hk. by rewrite lookup_insert_ne.
  - intros Hnz. by rewrite lookup_insert_eq, (div_nonzero quot _ _ Hnz).
  - intros Hz. eexists. split; [by rewrite lookup_insert_eq|].
    unfold JS.div. apply Qeq_bool_iff in Hz. rewrite Hz.
    by destruct (windowWidth ?= 0)%Q.
Qed.

Lemma injectItemWidth_width_witness :
  ∃ so' style',
    injectItemWidth JS.div64 390 (Some fourPerPage) = Some so'
    ∧ screen_tabBarItemStyle so' = Some style'
    ∧ style' !! "width" = Some (ItemNumber (JS.Fin (JS.div64 390 4)))
    ∧ style' !! "flex" = Some (ItemNumber (JS.Fin 1)).
Proof.
  destruct (injectItemWidth_width JS.div64 390 4 fourPerPage eq_refl)
    as (so' & style' & Hso & _ & _ & Hstyle & Hother & Hwidth & _).
  exists so', style'. split; [exact Hso|]. split; [exact Hstyle|].
  split; [apply Hwidth; discriminate|].
  rewrite Hother; [reflexivity|discriminate].
Defined.

(** X15. The block runs on every render and writes into the options it
    reads: running it again for another window width gives what running
    it once for that width gives, so the item width follows the window
    and nothing piles up; options without [itemCountByPage], and absent
    options, are left as they are. *)
Theorem injectItemWidth_rerender (quot : Q → Q → Q) (w1 w2 : Q)
    (screenOptions : option ScreenOptions) :
  injectItemWidth quot w2 (injectItemWidth quot w1 screenOptions)
  = injectItemWidth quot w2 screenOptions
  ∧ (screenOptions ≫= itemCountByPage = None →
     injectItemWidth quot w1 screenOptions = screenOptions).
Proof.
  split.
  - destruct screenOptions as [so|]; [|done]. unfold injectItemWidth.
    destruct (itemCountByPage so) as [count|] eqn:Hcount; simpl.
    + by rewrite insert_insert_eq.
    + by rewrite Hcount.
  - destruct screenOptions as [so|]; [|done]. simpl. unfold injectItemWidth.
    by intros ->.
Qed.

Lemma injectItemWidth_rerender_witness :
  injectItemWidth JS.div64 844
    (injectItemWidth JS.div64 390 (Some fourPerPage))
  = injectItemWidth JS.div64 844 (Some fourPerPage).
Proof.
  apply (injectItemWidth_rerender JS.div64 390 844 (Some fourPerPage)).
Defined.

(** ** The defaults from the deprecated props *)

Lemma defaultScreenOptions_lookup (o : LegacyTabBarOptions)
    (lazy : option bool) (k : string) :
  k ≠ "lazy" →
  (defaultScreenOptions (Some o) lazy).1 !! k
  = match assignedOptions o !! k with
    | Some v => if JS.is_undefined v then None else Some v
    | None => None
    end.
Proof.
  intros Hk. unfold defaultScreenOptions.
  destruct lazy; simpl; rewrite ?lookup_insert_ne by done;
    by rewrite dropUndefined_lookup, (right_id_L ∅ (∪)).
Qed.

(** X16. No key of the defaults holds [undefined], whatever the bag and
    the [lazy] prop: a key the bag leaves undefined is absent, so it
    cannot shadow an option of a screen. *)
Theorem defaultScreenOptions_no_undefined
    (tabBarOptions : option LegacyTabBarOptions) (lazy : option bool)
    (k : string) (v : JS.jsval) :
  (defaultScreenOptions tabBarOptions lazy).1 !! k = Some v →
  v ≠ JS.VUndefined.
Proof.
  unfold defaultScreenOptions.
  assert (∀ m : gmap string JS.jsval,
            (∀ v', m !! k = Some v' → v' ≠ JS.VUndefined) →
            (match lazy with
             | Some b => <["lazy" := JS.VBool b]> m
             | None => m
             end) !! k = Some v → v ≠ JS.VUndefined) as Hlazy.
  { intros m Hm. destruct lazy as [b|]; [|apply Hm].
    destruct (decide (k = "lazy")) as [->|Hk].
    - rewrite lookup_insert_eq. by intros [= <-].
    - rewrite lookup_insert_ne by done. apply Hm. }
  destruct tabBarOptions as [o|].
  - intros Hv. eapply (Hlazy (dropUndefined (assignedOptions o ∪ ∅))).
    + intros v'. rewrite dropUndefined_lookup.
      destruct ((assignedOptions o ∪ ∅) !! k) as [v''|]; [|done].
      destruct v''; simpl; intros ?; by simplify_eq.
    + by destruct lazy.
  - intros Hv. eapply (Hlazy ∅); [by intros v'; rewrite lookup_empty|].
    by destruct lazy.
Qed.

Lemma defaultScreenOptions_no_undefined_witness :
  (defaultScreenOptions (Some redInvisibleBag) (Some true)).1
    !! "tabBarActiveTintColor" = Some (JS.VString "red")
  ∧ JS.VString "red" ≠ JS.VUndefined.
Proof.
  split; [reflexivity|].
  apply (defaultScreenOptions_no_undefined (Some redInvisibleBag) (Some true)
           "tabBarActiveTintColor").
  reflexivity.
Defined.

Example emptyBag_with_lazy :
  (defaultScreenOptions (Some emptyBag) (Some false)).1
  = {[ "lazy" := JS.VBool false;
       "tabBarStyle" :=
         JS.VArray [ JS.VObject [("display", JS.VString "flex")];
                     JS.VUndefined ] ]}.
Proof. by vm_compute. Qed.

(** X17. Each of the ten fields that the shim copies under a new name
    arrives under that name with its value, and leaves no key when the
    bag does not define it. *)
Theorem defaultScreenOptions_renamed (o : LegacyTabBarOptions)
    (lazy : option bool) :
  Forall (λ field,
            (defaultScreenOptions (Some o) lazy).1 !! field.2
            = if JS.is_undefined (field.1 o) then None
              else Some (field.1 o))
         renamedFields.
Proof.
  unfold renamedFields.
  repeat (constructor;
          [ rewrite defaultScreenOptions_lookup by done;
            unfold assignedOptions; cbn [fst snd];
            rewrite ?lookup_insert_ne by done;
            by rewrite lookup_insert_eq |]).
  constructor.
Qed.

(** X18. The label position of the defaults is the [labelPosition] of
    the bag when that is neither undefined nor null; otherwise it is
    ["below-icon"] exactly when [adaptive] is [false], and absent in any
    other case. *)
Theorem defaultScreenOptions_labelPosition (o : LegacyTabBarOptions)
    (lazy : option bool) :
  (defaultScreenOptions (Some o) lazy).1 !! "tabBarLabelPosition"
  = match labelPosition o with
    | JS.VUndefined | JS.VNull =>
        match adaptive o with
        | JS.VBool false => Some (JS.VString "below-icon")
        | _ => None
        end
    | position => Some position
    end.
Proof.
  rewrite defaultScreenOptions_lookup by done. unfold assignedOptions.
  do 10 (rewrite lookup_insert_ne by done). rewrite lookup_insert_eq.
  destruct (labelPosition o); simpl; try done.
  all: by destruct (adaptive o) as [| |[]| | | | |].
Qed.

Lemma warnOnce_quiet (message : Warning → string) (calls : list Warning) :
  ∀ warned,
    (∀ w, w ∈ calls → message w ∈ warned) →
    warnOnce message warned calls = ([], warned).
Proof.
  induction calls as [|w calls IH]; intros warned Hall; [done|]. simpl.
  destruct (decide (message w ∈ warned)) as [_|Hnew].
  - apply IH. intros w' Hw'. apply Hall. by right.
  - destruct Hnew. apply Hall. by left.
Qed.

Lemma warnOnce_remembers (message : Warning → string)
    (calls : list Warning) :
  ∀ warned,
    warned ⊆ (warnOnce message warned calls).2
    ∧ (∀ w, w ∈ calls → message w ∈ (warnOnce message warned calls).2)
    ∧ (∀ w, w ∈ (warnOnce message warned calls).1 → w ∈ calls).
Proof.
  induction calls as [|w calls IH]; intros warned.
  - simpl. split; [done|]. split; intros w Hw; by apply elem_of_nil in Hw.
  - simpl. destruct (decide (message w ∈ warned)) as [Hold|Hnew].
    + destruct (IH warned) as (Hsub & Hall & Hprinted).
      split; [done|]. split.
      * intros w' [->|Hw']%elem_of_cons; [by apply Hsub | by apply Hall].
      * intros w' Hw'. right. by apply Hprinted.
    + destruct (IH ({[ message w ]} ∪ warned)) as (Hsub & Hall & Hprinted).
      destruct (warnOnce message ({[ message w ]} ∪ warned) calls)
        as [printed warned'] eqn:Hrest.
      simpl in *.
      split; [by etrans; [apply union_subseteq_r|exact Hsub]|]. split.
      * intros w' [->|Hw']%elem_of_cons; [|by apply Hall].
        by apply Hsub, elem_of_union_l, elem_of_singleton.
      * intros w' [->|Hw']%elem_of_cons; [by left|].
        right. by apply Hprinted.
Qed.

(** X19. The [lazy] key of the defaults is the legacy [lazy] prop and
    nothing else: a bag cannot set it. The navigator calls [warnOnce]
    exactly when a deprecated prop is used, and with neither of them the
    defaults are empty; what a render prints is among its calls, and a
    second render with the same props prints nothing. *)
Theorem defaultScreenOptions_lazy
    (tabBarOptions : option LegacyTabBarOptions) (lazy : option bool)
    (message : Warning → string) (warned : gset string) :
  let render := defaultScreenOptions tabBarOptions lazy in
  let first := warnOnce message warned render.2 in
  render.1 !! "lazy" = JS.VBool <$> lazy
  ∧ (render.2 = [] ↔ tabBarOptions = None ∧ lazy = None)
  ∧ (tabBarOptions = None → lazy = None → render.1 = ∅)
  ∧ (∀ w, w ∈ first.1 → w ∈ render.2)
  ∧ (warnOnce message first.2 render.2).1 = [].
Proof.
  cbv zeta. split; [|split; [|split; [|split]]].
  - unfold defaultScreenOptions.
    destruct tabBarOptions as [o|], lazy as [b|]; simpl;
      rewrite ?lookup_insert_eq; try done.
    rewrite dropUndefined_lookup, (right_id_L ∅ (∪)).
    unfold assignedOptions.
    do 11 (rewrite lookup_insert_ne by done).
    by rewrite lookup_singleton_ne.
  - unfold defaultScreenOptions.
    destruct tabBarOptions as [o|], lazy as [b|]; simpl;
      split; try done; by intros [[=] [=]] || by intros [? [=]]
                          || by intros [[=] ?].
  - by intros -> ->.
  - apply warnOnce_remembers.
  - rewrite warnOnce_quiet; [done|]. apply warnOnce_remembers.
Qed.

(** ** Layout measurement *)

(** X20. After a layout event the stored layout has the measured height
    and width; an event that measures what is stored hands back the
    stored layout itself, so the same event twice changes nothing the
    second time; and the height is reported to the callback on every
    event, changed or not. *)
Theorem handleLayout_measures (onHeightChange : bool)
    (measured layout : Size) :
  let after := (handleLayout onHeightChange measured layout).1 in
  (height after == height measured)%Q
  ∧ (width after == width measured)%Q
  ∧ ((height measured == height layout)%Q
     ∧ (width measured == width layout)%Q → after = layout)
  ∧ (handleLayout onHeightChange measured after).1 = after
  ∧ (handleLayout onHeightChange measured layout).2
    = (if onHeightChange then [height measured] else []).
Proof.
  cbv zeta. unfold handleLayout. cbn [fst snd].
  destruct (Qeq_bool (height measured) (height layout)) eqn:Hh;
    destruct (Qeq_bool (width measured) (width layout)) eqn:Hw;
    cbn [andb height width].
  - apply Qeq_bool_iff in Hh as Hh', Hw as Hw'.
    rewrite Hh, Hw. cbn [andb]. repeat split; try done; by symmetry.
  - rewrite !Qeq_bool_refl. cbn [andb]. repeat split; try done.
    intros [_ Hw']. apply Qeq_bool_iff in Hw'. congruence.
  - rewrite !Qeq_bool_refl. cbn [andb]. repeat split; try done.
    intros [Hh' _]. apply Qeq_bool_iff in Hh'. congruence.
  - rewrite !Qeq_bool_refl. cbn [andb]. repeat split; try done.
    intros [Hh' _]. apply Qeq_bool_iff in Hh'. congruence.
Qed.

Lemma handleLayout_measures_witness :
  (handleLayout true {| height := 83; width := 390 |}
     {| height := 83; width := 390 |}).1
  = {| height := 83; width := 390 |}
  ∧ (handleLayout true {| height := 83; width := 390 |}
       {| height := 0; width := 390 |}).2 = [83%Q].
Proof.
  pose proof (handleLayout_measures true {| height := 83; width := 390 |}
                {| height := 83; width := 390 |}) as (_ & _ & Hsame & _ & _).
  pose proof (handleLayout_measures true {| height := 83; width := 390 |}
                {| height := 0; width := 390 |}) as (_ & _ & _ & _ & Hcalls).
  split; [|exact Hcalls].
  apply Hsame. split; reflexivity.
Defined.

Lemma defaultScreenOptions_lazy_witness :
  (defaultScreenOptions None None).1 = ∅
  ∧ (defaultScreenOptions None None).2 = [].
Proof.
  pose proof (defaultScreenOptions_lazy None None (λ _, "") ∅)
    as (_ & Hcalls & Hempty & _).
  split; [by apply Hempty | by apply Hcalls].
Defined.

(** The notice about [lazy] is printed by the first render and not by
    the second. *)
Example lazy_notice_is_printed_once :
  let message w := match w with
                   | LazyDeprecated => "lazy"
                   | TabBarOptionsDeprecated _ => "tabBarOptions"
                   end in
  let calls := (defaultScreenOptions None (Some true)).2 in
  let first := warnOnce message ∅ calls in
  first.1 = [LazyDeprecated]
  ∧ (warnOnce message first.2 calls).1 = [].
Proof. by vm_compute. Qed.

Lemma shouldUseHorizontalLabels_defined_witness :
  is_Some (shouldUseHorizontalLabels id JS.add64 three_tabs
      (descriptorsOf None None)
             tabletLayout portrait).
Proof.
  apply (shouldUseHorizontalLabels_defined id JS.add64 three_tabs
           (descriptorsOf None None) tabletLayout portrait).
  exists (route_of "Feed"), {| options := optionsOf None None |}.
  split; [reflexivity|]. split; [reflexivity|].
  intros _ _. apply (three_tabs_wellFormed None None).
Defined.
